(** * Questionnaire web application: models, permissions, response intake
      and analytics.

    A shallow embedding of [app/models/user.py], [app/models/questionnaire.py],
    [app/models/response.py], of the views of [app/questionnaire/routes.py]
    ([respond], [create], [view], [list_questionnaires], [delete],
    [settings]), of the question and response API of [app/api/routes.py], of
    the user and questionnaire administration of [app/admin/routes.py], of
    the registration of [app/auth] and of the search of [app/main/routes.py].

    Conventions.
    - A table is the list of its rows in insertion order; a query without
      [order_by] returns rows in that order and [.first()] is the first match.
    - The SQLAlchemy session is a working copy of the tables: queries see
      pending rows (autoflush), [commit] publishes the copy, [rollback]
      returns to the tables as they were when the request started.
    - Python strings are sequences of code points below 256.
    - Python floats are exact rationals extended with the infinities and NaN;
      the binary rounding of IEEE doubles is not represented.
    - The bookkeeping columns [created_at], [updated_at], [last_seen] and
      [password_hash] are left out; [submitted_at] is kept and takes the
      clock reading carried by the request. *)

From Stdlib Require Import Ascii String QArith Qround.
From stdpp Require Import gmap strings list pretty sorting.

Open Scope string_scope.
Open Scope list_scope.
Open Scope Z_scope.

(** ** Python string primitives *)

Definition code (c : ascii) : Z := Z.of_N (N_of_ascii c).

(** [str.isspace] on one code point below 256. *)
Definition isspace (c : ascii) : bool :=
  let n := code c in
  ((9 <=? n) && (n <=? 13)) || ((28 <=? n) && (n <=? 32))
  || (n =? 133) || (n =? 160).

Fixpoint lstrip (s : string) : string :=
  match s with
  | String c s' => if isspace c then lstrip s' else s
  | EmptyString => EmptyString
  end.

Definition rstrip (s : string) : string := String.rev (lstrip (String.rev s)).

(** [s.strip()] *)
Definition strip (s : string) : string := rstrip (lstrip s).

(** [s.split(sep)] for a one-character separator. *)
Fixpoint split (sep : ascii) (s : string) : list string :=
  match s with
  | EmptyString => [EmptyString]
  | String c s' =>
      if Ascii.eqb c sep then EmptyString :: split sep s'
      else match split sep s' with
           | w :: ws => String c w :: ws
           | [] => [String c EmptyString]
           end
  end.

(** [sep.join(l)] *)
Fixpoint join (sep : string) (l : list string) : string :=
  match l with
  | [] => EmptyString
  | [x] => x
  | x :: rest => x +:+ sep +:+ join sep rest
  end.

(** Truth value of an optional string: [None] and [''] are falsy. *)
Definition truthy (v : option string) : bool :=
  match v with
  | Some (String _ _) => true
  | _ => false
  end.

(** [str(n)] for an integer. *)
Definition str_of_int (n : Z) : string := pretty n.

(** ** Python floats *)

Inductive pyfloat : Type :=
| Finite (q : Q)
| Infinity (negative : bool)
| NaN.

Definition digit_of (c : ascii) : option Z :=
  let n := code c in
  if (48 <=? n) && (n <=? 57) then Some (n - 48) else None.

(** The rest of a [digitpart] after its first digit: digits, each optionally
    preceded by one underscore.  Returns the value, the number of digits and
    the unread input. *)
Fixpoint digitpart_tail (s : string) (acc : Z) (n : nat) : Z * nat * string :=
  match s with
  | String c s' =>
      match digit_of c with
      | Some d => digitpart_tail s' (10 * acc + d) (S n)
      | None =>
          if Ascii.eqb c "_" then
            match s' with
            | String c' s'' =>
                match digit_of c' with
                | Some d => digitpart_tail s'' (10 * acc + d) (S n)
                | None => (acc, n, s)
                end
            | EmptyString => (acc, n, s)
            end
          else (acc, n, s)
      end
  | EmptyString => (acc, n, s)
  end.

Definition digitpart (s : string) : option (Z * nat * string) :=
  match s with
  | String c s' =>
      match digit_of c with
      | Some d => Some (digitpart_tail s' d 1%nat)
      | None => None
      end
  | EmptyString => None
  end.

(** [number ::= [digitpart] "." digitpart | digitpart ["."]]; returns the
    digits read as one integer, how many of them follow the point, and the
    unread input. *)
Definition number (s : string) : option (Z * nat * string) :=
  match digitpart s with
  | Some (m, _, String "." r) =>
      match digitpart r with
      | Some (f, k, r') => Some (m * 10 ^ Z.of_nat k + f, k, r')
      | None => Some (m, 0%nat, r)
      end
  | Some (m, _, r) => Some (m, 0%nat, r)
  | None =>
      match s with
      | String "." r =>
          match digitpart r with
          | Some (f, k, r') => Some (f, k, r')
          | None => None
          end
      | _ => None
      end
  end.

Definition sign (s : string) : bool * string :=
  match s with
  | String "+" r => (false, r)
  | String "-" r => (true, r)
  | _ => (false, s)
  end.

(** [exponent ::= ("e" | "E") [sign] digitpart]; absent means 0. *)
Definition exponent (s : string) : option (Z * string) :=
  match s with
  | String c r =>
      if Ascii.eqb c "e" || Ascii.eqb c "E" then
        let '(neg, r1) := sign r in
        match digitpart r1 with
        | Some (e, _, r2) => Some (if neg then - e else e, r2)
        | None => None
        end
      else Some (0, s)
  | EmptyString => Some (0, s)
  end.

Definition lower (c : ascii) : ascii :=
  let n := code c in
  if (65 <=? n) && (n <=? 90) then ascii_of_N (Z.to_N (n + 32)) else c.

Fixpoint lowercase (s : string) : string :=
  match s with
  | String c s' => String (lower c) (lowercase s')
  | EmptyString => EmptyString
  end.

Definition scale10 (m e : Z) : Q :=
  if 0 <=? e then inject_Z (m * 10 ^ e)
  else Qmake m (Z.to_pos (10 ^ (- e))).

(** [float(s)]: [None] stands for [ValueError]. *)
Definition float_of_string (s : string) : option pyfloat :=
  let '(neg, body) := sign (strip s) in
  let word := lowercase body in
  if String.eqb word "inf" || String.eqb word "infinity" then Some (Infinity neg)
  else if String.eqb word "nan" then Some NaN
  else
    match number body with
    | Some (m, k, r) =>
        match exponent r with
        | Some (e, EmptyString) =>
            Some (Finite (Qred (scale10 (if neg then - m else m) (e - Z.of_nat k))))
        | _ => None
        end
    | None => None
    end.

Inductive exn : Type := OverflowError | ValueError.

(** The value of a call that may raise. *)
Inductive result (A : Type) : Type :=
| Ok (a : A)
| Raise (e : exn).
Arguments Ok {A} a.
Arguments Raise {A} e.

(** [int(x)] truncates towards zero; it raises on the infinities and on NaN. *)
Definition int_of_float (x : pyfloat) : result Z :=
  match x with
  | Finite q => Ok (Z.quot (Qnum q) (Z.pos (Qden q)))
  | Infinity _ => Raise OverflowError
  | NaN => Raise ValueError
  end.

(** [round(x, 2)]: the nearest multiple of 1/100, ties to the even one. *)
Definition round_half_even (y : Q) : Z :=
  let f := Qfloor y in
  match Qcompare (y - inject_Z f) (1 # 2) with
  | Lt => f
  | Gt => f + 1
  | Eq => if Z.even f then f else f + 1
  end.

Definition round2 (x : Q) : Q :=
  Qred (Qmake (round_half_even (x * inject_Z 100)) 100).

(** ** Rows of the five tables *)

Module User.
Record t : Type := mk {
  id : Z;
  username : string;
  email : string;
  role : string;
  is_active : bool
}.
End User.

Module Questionnaire.
Record t : Type := mk {
  id : Z;
  title : string;
  description : option string;
  creator_id : Z;
  is_active : bool;
  is_public : bool;
  allow_anonymous : bool;
  allow_multiple_responses : bool
}.
End Questionnaire.

Module Question.
Record t : Type := mk {
  id : Z;
  questionnaire_id : Z;
  question_text : string;
  question_type : string;
  options : list string;
  is_required : bool;
  order_index : Z
}.
End Question.

Module Response.
Record t : Type := mk {
  id : Z;
  questionnaire_id : Z;
  user_id : option Z;
  submitted_at : Z;
  is_complete : bool;
  ip_address : option string;
  user_agent : option string
}.
End Response.

Module Answer.
Record t : Type := mk {
  id : Z;
  response_id : Z;
  question_id : Z;
  answer_text : option string;
  answer_value : option pyfloat
}.
End Answer.

(** The database: one list of rows per table. *)
Record Db : Type := mkDb {
  users : list User.t;
  questionnaires : list Questionnaire.t;
  questions : list Question.t;
  responses : list Response.t;
  answers : list Answer.t
}.

(** The key an auto-increment column gives the next inserted row. *)
Definition next_id (ids : list Z) : Z := 1 + foldr Z.max 0 ids.

(** ** [app/models/user.py] *)

Definition is_admin (self : User.t) : bool :=
  String.eqb (User.role self) "admin".

Definition is_creator (self : User.t) : bool :=
  String.eqb (User.role self) "admin" || String.eqb (User.role self) "creator".

Definition can_access_questionnaire (self : User.t) (questionnaire : Questionnaire.t) : bool :=
  if is_admin self then true
  else if Questionnaire.creator_id questionnaire =? User.id self then true
  else if Questionnaire.is_public questionnaire then true
  else false.

Definition can_edit_questionnaire (self : User.t) (questionnaire : Questionnaire.t) : bool :=
  if is_admin self then true
  else Questionnaire.creator_id questionnaire =? User.id self.

(** ** [app/models/questionnaire.py]: Questionnaire *)

(** [self.responses]: the responses that reference the questionnaire. *)
Definition responses_of (db : Db) (self : Questionnaire.t) : list Response.t :=
  filter (fun r => Response.questionnaire_id r = Questionnaire.id self) (responses db).

(** [order_by(Question.order_index)] as a stable sort: a row is inserted
    before the rows that follow it in the table and do not have a smaller
    index, so that rows with equal indexes keep their table order. *)
Fixpoint insert_by_order (q : Question.t) (l : list Question.t) : list Question.t :=
  match l with
  | [] => [q]
  | x :: l' =>
      if Question.order_index q <=? Question.order_index x then q :: l
      else x :: insert_by_order q l'
  end.

Definition order_by_index (l : list Question.t) : list Question.t :=
  foldr insert_by_order [] l.

Definition questions_of (db : Db) (questionnaire_id : Z) : list Question.t :=
  filter (fun q => Question.questionnaire_id q = questionnaire_id) (questions db).

Definition get_questions (db : Db) (self : Questionnaire.t) : list Question.t :=
  order_by_index (questions_of db (Questionnaire.id self)).

Definition get_response_count (db : Db) (self : Questionnaire.t) : nat :=
  length (filter (fun r => Response.is_complete r = true) (responses_of db self)).

Definition get_completion_rate (db : Db) (self : Questionnaire.t) : Q :=
  let total_responses := length (responses_of db self) in
  let complete_responses :=
    length (filter (fun r => Response.is_complete r = true) (responses_of db self)) in
  if Nat.eqb total_responses 0 then 0%Q
  else round2 ((inject_Z (Z.of_nat complete_responses)
                / inject_Z (Z.of_nat total_responses)) * inject_Z 100)%Q.

Definition user_has_responded (db : Db) (self : Questionnaire.t) (user_id : Z) : bool :=
  if user_id =? 0 then false
  else
    match list_find (fun r => Response.user_id r = Some user_id
                              ∧ Response.is_complete r = true)
                    (responses_of db self) with
    | Some _ => true
    | None => false
    end.

(** Truth value of [user]: an object is truthy, [None] is not. *)
Definition present (user : option User.t) : bool :=
  match user with
  | Some _ => true
  | None => false
  end.

Definition can_user_respond (db : Db) (self : Questionnaire.t) (user : option User.t) : bool :=
  if negb (Questionnaire.is_active self) then false
  else if negb (present user) && negb (Questionnaire.allow_anonymous self) then false
  else if match user with
          | Some u => negb (Questionnaire.allow_multiple_responses self)
                      && user_has_responded db self (User.id u)
          | None => false
          end
  then false
  else true.

(** ** [app/models/response.py] *)

(** [self.answers]: the answers that reference the response. *)
Definition answers_of (db : Db) (response_id : Z) : list Answer.t :=
  filter (fun a => Answer.response_id a = response_id) (answers db).

(** [self.answers.filter_by(question_id=question_id).first()] *)
Definition get_answer_for_question (db : Db) (self : Response.t) (question_id : Z)
  : option Answer.t :=
  snd <$> list_find (fun a => Answer.question_id a = question_id)
                    (answers_of db (Response.id self)).

(** The questions reached through [self.questionnaire.questions] that are
    flagged required. *)
Definition required_questions_of (db : Db) (self : Response.t) : list Question.t :=
  filter (fun q => Question.is_required q = true)
         (questions_of db (Response.questionnaire_id self)).

Definition get_completion_percentage (db : Db) (self : Response.t) : Q :=
  let required_questions := length (required_questions_of db self) in
  if Nat.eqb required_questions 0 then
    if Nat.ltb 0 (length (answers_of db (Response.id self))) then 100%Q else 0%Q
  else
    let answered_required :=
      foldl (fun n question =>
               match get_answer_for_question db self (Question.id question) with
               | Some _ => S n
               | None => n
               end)
            0%nat (required_questions_of db self) in
    round2 ((inject_Z (Z.of_nat answered_required)
             / inject_Z (Z.of_nat required_questions)) * inject_Z 100)%Q.


Definition can_be_edited (self : Response.t) : bool :=
  if negb (Response.is_complete self) then true else false.

(** [Answer.set_value]; the answer is returned with the two value columns
    replaced.  A [TypeError] ([value] is [None]) or [ValueError] from [float]
    clears both. *)
Definition set_value (self : Answer.t) (value : option string) (question_type : string)
  : Answer.t :=
  let store text number :=
    Answer.mk (Answer.id self) (Answer.response_id self) (Answer.question_id self)
              text number in
  if String.eqb question_type "scale_1_5" then
    match value ≫= float_of_string with
    | Some x => store None (Some x)
    | None => store None None
    end
  else if String.eqb question_type "single_choice"
          || String.eqb question_type "multiple_choice"
          || String.eqb question_type "open_ended" then
    store value None
  else
    store value None.

(** ** [app/models/questionnaire.py]: Question *)

Record Stats : Type := mkStats {
  total_answers : nat;
  answer_distribution : gmap string nat;
  sample_responses : option (list string)
}.

(** [d[k] = d.get(k, 0) + 1] *)
Definition count_up (d : gmap string nat) (k : string) : gmap string nat :=
  <[k := (default 0%nat (d !! k) + 1)%nat]> d.

(** [self.answers.join(Response).filter(Response.is_complete == True).all()] *)
Definition complete_answers (db : Db) (self : Question.t) : list Answer.t :=
  flat_map
    (fun a =>
       (fun _ => a) <$>
         filter (fun r => Response.id r = Answer.response_id a
                          ∧ Response.is_complete r = true)
                (responses db))
    (filter (fun a => Answer.question_id a = Question.id self) (answers db)).

Definition count_choices (d : gmap string nat) (answer : Answer.t) : gmap string nat :=
  match Answer.answer_text answer with
  | Some (String c s) =>
      foldl (fun d value =>
               match value with
               | String _ _ => count_up d value
               | EmptyString => d
               end)
            d (strip <$> split "," (String c s))
  | _ => d
  end.

Definition count_scale (d : result (gmap string nat)) (answer : Answer.t)
  : result (gmap string nat) :=
  match d with
  | Raise e => Raise e
  | Ok d =>
      match Answer.answer_value answer with
      | None => Ok d
      | Some x =>
          match int_of_float x with
          | Ok n => Ok (count_up d (str_of_int n))
          | Raise e => Raise e
          end
      end
  end.

Definition get_answer_statistics (db : Db) (self : Question.t) : result Stats :=
  let answers := complete_answers db self in
  let total := length answers in
  if String.eqb (Question.question_type self) "single_choice"
     || String.eqb (Question.question_type self) "multiple_choice" then
    Ok (mkStats total (foldl count_choices ∅ answers) None)
  else if String.eqb (Question.question_type self) "scale_1_5" then
    match foldl count_scale (Ok ∅) answers with
    | Ok d => Ok (mkStats total d None)
    | Raise e => Raise e
    end
  else if String.eqb (Question.question_type self) "open_ended" then
    Ok (mkStats total ∅
          (Some (omap Answer.answer_text
                      (filter (fun a => truthy (Answer.answer_text a) = true)
                              (take 10 answers)))))
  else Ok (mkStats total ∅ None).

(** ** [app/questionnaire/routes.py]: the [respond] view *)

Inductive Method : Type := GET | POST.

(** What the view reads from the request.  [form] is the multi-dict of the
    posted fields, as the list of its (name, value) items. *)
Record Request : Type := mkRequest {
  method : Method;
  form : list (string * string);
  remote_addr : option string;
  header_user_agent : option string;
  utcnow : Z
}.

(** [request.form.get(name)] *)
Definition form_get (name : string) (f : list (string * string)) : option string :=
  (fun kv => snd (snd kv)) <$> list_find (fun kv => fst kv = name) f.

(** [request.form.getlist(name)] *)
Definition form_getlist (name : string) (f : list (string * string)) : list string :=
  snd <$> filter (fun kv => fst kv = name) f.

(** [name in request.form] *)
Definition form_has (name : string) (f : list (string * string)) : bool :=
  bool_decide (is_Some (list_find (fun kv => fst kv = name) f)).

Inductive Flash : Type :=
| NotActive
| MustLogin
| AlreadyResponded
| CannotRespond
| Required (question_text : string)
| DraftSaved
| Submitted.

Inductive Outcome : Type :=
| NotFound
| RedirectView
| RedirectLogin
| RenderRespond.

Definition with_responses (db : Db) (l : list Response.t) : Db :=
  mkDb (users db) (questionnaires db) (questions db) l (answers db).

Definition with_answers (db : Db) (l : list Answer.t) : Db :=
  mkDb (users db) (questionnaires db) (questions db) (responses db) l.

(** Writing through a loaded object: the rows with its primary key change. *)
Definition update_response (id : Z) (f : Response.t → Response.t) (l : list Response.t)
  : list Response.t :=
  (fun r => if Response.id r =? id then f r else r) <$> l.

Definition update_answer (id : Z) (f : Answer.t → Answer.t) (l : list Answer.t)
  : list Answer.t :=
  (fun a => if Answer.id a =? id then f a else a) <$> l.

Definition set_is_complete (b : bool) (r : Response.t) : Response.t :=
  Response.mk (Response.id r) (Response.questionnaire_id r) (Response.user_id r)
              (Response.submitted_at r) b (Response.ip_address r) (Response.user_agent r).

Definition set_submitted_at (t : Z) (r : Response.t) : Response.t :=
  Response.mk (Response.id r) (Response.questionnaire_id r) (Response.user_id r)
              t (Response.is_complete r) (Response.ip_address r) (Response.user_agent r).

(** [Questionnaire.query.get(id)] *)
Definition get_questionnaire (db : Db) (id : Z) : option Questionnaire.t :=
  snd <$> list_find (fun q => Questionnaire.id q = id) (questionnaires db).

(** The draft of [user] for the questionnaire, if any. *)
Definition find_draft (db : Db) (questionnaire : Questionnaire.t) (user : User.t)
  : option Response.t :=
  snd <$> list_find (fun r => Response.questionnaire_id r = Questionnaire.id questionnaire
                              ∧ Response.user_id r = Some (User.id user)
                              ∧ Response.is_complete r = false)
                    (responses db).

(** Lines 148-164: the draft to fill, created and flushed when there is none.
    Returns the session and the response's key. *)
Definition get_or_create_response (db : Db) (questionnaire : Questionnaire.t)
    (user : option User.t) (req : Request) : Db * Z :=
  match user ≫= find_draft db questionnaire with
  | Some response => (db, Response.id response)
  | None =>
      let response :=
        Response.mk (next_id (Response.id <$> responses db))
                    (Questionnaire.id questionnaire)
                    (User.id <$> user)
                    (utcnow req)
                    false
                    (remote_addr req)
                    (Some (default "" (header_user_agent req))) in
      (with_responses db (responses db ++ [response]), Response.id response)
  end.

Definition field_name (question : Question.t) : string :=
  "question_" +:+ str_of_int (Question.id question).

(** Lines 178-198: get or create the answer of the question and set it. *)
Definition store_answer (session : Db) (response_id : Z) (question : Question.t)
    (req : Request) (answer_value : option string) : Db :=
  let found :=
    list_find (fun a => Answer.response_id a = response_id
                        ∧ Answer.question_id a = Question.id question)
              (answers session) in
  let answer :=
    match found with
    | Some (_, a) => a
    | None => Answer.mk (next_id (Answer.id <$> answers session))
                        response_id (Question.id question) None None
    end in
  let rows :=
    match found with
    | Some _ => answers session
    | None => answers session ++ [answer]
    end in
  let answer_value :=
    if String.eqb (Question.question_type question) "multiple_choice"
    then Some (join ", " (form_getlist (field_name question) (form req)))
    else answer_value in
  with_answers session
    (update_answer (Answer.id answer)
                   (fun a => set_value a answer_value (Question.question_type question))
                   rows).

(** State of the loop of lines 167-198. *)
Record Processing : Type := mkProcessing {
  session : Db;
  valid_submission : bool;
  flashed : list Flash
}.

Definition process_question (response_id : Z) (req : Request)
    (st : Processing) (question : Question.t) : Processing :=
  let answer_value := form_get (field_name question) (form req) in
  if Question.is_required question && negb (truthy answer_value) then
    mkProcessing (session st) false
                 (flashed st ++ [Required (Question.question_text question)])
  else if truthy answer_value then
    mkProcessing (store_answer (session st) response_id question req answer_value)
                 (valid_submission st) (flashed st)
  else st.

Definition process_answers (session : Db) (response_id : Z) (req : Request)
    (questions : list Question.t) : Processing :=
  foldl (process_question response_id req) (mkProcessing session true []) questions.

(** The view.  Returns the database after the request, the flashed messages
    and the kind of reply. *)
Definition respond (db : Db) (current_user : option User.t) (id : Z) (req : Request)
  : Db * list Flash * Outcome :=
  match get_questionnaire db id with
  | None => (db, [], NotFound)
  | Some questionnaire =>
      if negb (Questionnaire.is_active questionnaire) then (db, [NotActive], RedirectView)
      else
        let user := current_user in
        if negb (can_user_respond db questionnaire user) then
          if negb (present user) && negb (Questionnaire.allow_anonymous questionnaire)
          then (db, [MustLogin], RedirectLogin)
          else if match user with
                  | Some u => negb (Questionnaire.allow_multiple_responses questionnaire)
                              && user_has_responded db questionnaire (User.id u)
                  | None => false
                  end
          then (db, [AlreadyResponded], RedirectView)
          else (db, [CannotRespond], RedirectView)
        else
          let questions := get_questions db questionnaire in
          match method req with
          | GET => (db, [], RenderRespond)
          | POST =>
              let '(session0, response_id) :=
                get_or_create_response db questionnaire user req in
              let st := process_answers session0 response_id req questions in
              if valid_submission st then
                if form_has "save_draft" (form req) then
                  (with_responses (session st)
                     (update_response response_id (set_is_complete false)
                                      (responses (session st))),
                   flashed st ++ [DraftSaved], RenderRespond)
                else
                  (with_responses (session st)
                     (update_response response_id
                        (fun r => set_submitted_at (utcnow req) (set_is_complete true r))
                        (responses (session st))),
                   flashed st ++ [Submitted], RedirectView)
              else (db, flashed st, RenderRespond)
          end
  end.

(** ** [app/api/routes.py]: questions *)

Inductive ApiReply : Type :=
| ApiNotFound      (* 404 *)
| ApiDenied        (* 403 *)
| ApiServerError   (* an exception escaped; nothing was committed *)
| ApiSuccess.

(** The JSON object of a request, with the keys the views read.  [None] is
    an absent key. *)
Record QuestionData : Type := mkQuestionData {
  data_questionnaire_id : option Z;
  data_question_text : option string;
  data_question_type : option string;
  data_is_required : option bool;
  data_options : option (list string)
}.

(** [Question.query.get(id)] *)
Definition get_question (db : Db) (id : Z) : option Question.t :=
  snd <$> list_find (fun q => Question.id q = id) (questions db).

Definition with_questions (db : Db) (l : list Question.t) : Db :=
  mkDb (users db) (questionnaires db) l (responses db) (answers db).

(** [question_type in ['single_choice', 'multiple_choice']] *)
Definition is_choice_type (question_type : string) : bool :=
  String.eqb question_type "single_choice" || String.eqb question_type "multiple_choice".

(** [[opt.strip() for opt in options if opt.strip()]] *)
Definition normalize_options (options : list string) : list string :=
  filter (fun o => o ≠ "") (strip <$> options).

(** The options a request leaves on a question of the given type: the
    trimmed non-empty ones when the request has a non-empty list and the
    type is a choice type. *)
Definition requested_options (data : QuestionData) (question_type : string)
  : option (list string) :=
  match data_options data with
  | Some (o :: rest) =>
      if is_choice_type question_type then Some (normalize_options (o :: rest)) else None
  | _ => None
  end.

(** [func.max(Question.order_index)] over the questions of a questionnaire;
    [None] when there is none. *)
Definition max_order_index (db : Db) (questionnaire_id : Z) : option Z :=
  foldr (fun q acc => match acc with
                      | Some m => Some (Z.max (Question.order_index q) m)
                      | None => Some (Question.order_index q)
                      end)
        None (questions_of db questionnaire_id).

(** [x or 0] for an optional integer. *)
Definition or_zero (x : option Z) : Z :=
  match x with
  | Some m => if m =? 0 then 0 else m
  | None => 0
  end.

Definition create_question (db : Db) (current_user : User.t) (data : QuestionData)
  : Db * ApiReply :=
  match data_questionnaire_id data ≫= get_questionnaire db with
  | None => (db, ApiNotFound)
  | Some questionnaire =>
      if negb (can_edit_questionnaire current_user questionnaire) then (db, ApiDenied)
      else
        let max_order := or_zero (max_order_index db (Questionnaire.id questionnaire)) in
        let question_type := default "open_ended" (data_question_type data) in
        let question :=
          Question.mk (next_id (Question.id <$> questions db))
                      (Questionnaire.id questionnaire)
                      (default "" (data_question_text data))
                      question_type
                      (default [] (requested_options data question_type))
                      (default false (data_is_required data))
                      (max_order + 1) in
        (with_questions db (questions db ++ [question]), ApiSuccess)
  end.

(** Writing through a loaded question: the rows with its primary key change. *)
Definition update_question_rows (id : Z) (f : Question.t → Question.t)
    (l : list Question.t) : list Question.t :=
  (fun q => if Question.id q =? id then f q else q) <$> l.

Definition update_question (db : Db) (current_user : User.t) (question_id : Z)
    (data : QuestionData) : Db * ApiReply :=
  match get_question db question_id with
  | None => (db, ApiNotFound)
  | Some question =>
      match get_questionnaire db (Question.questionnaire_id question) with
      | None => (db, ApiServerError)
      | Some questionnaire =>
          if negb (can_edit_questionnaire current_user questionnaire) then (db, ApiDenied)
          else
            let edit (q : Question.t) :=
              let question_type :=
                default (Question.question_type q) (data_question_type data) in
              Question.mk (Question.id q) (Question.questionnaire_id q)
                          (default (Question.question_text q) (data_question_text data))
                          question_type
                          (default [] (requested_options data question_type))
                          (default (Question.is_required q) (data_is_required data))
                          (Question.order_index q) in
            (with_questions db (update_question_rows (Question.id question) edit
                                                     (questions db)),
             ApiSuccess)
      end
  end.

(** [db.session.delete(question)]: the answers of the question go with it. *)
Definition delete_question (db : Db) (current_user : User.t) (question_id : Z)
  : Db * ApiReply :=
  match get_question db question_id with
  | None => (db, ApiNotFound)
  | Some question =>
      match get_questionnaire db (Question.questionnaire_id question) with
      | None => (db, ApiServerError)
      | Some questionnaire =>
          if negb (can_edit_questionnaire current_user questionnaire) then (db, ApiDenied)
          else
            (mkDb (users db) (questionnaires db)
                  (filter (fun q => Question.id q ≠ Question.id question) (questions db))
                  (responses db)
                  (filter (fun a => Answer.question_id a ≠ Question.id question)
                          (answers db)),
             ApiSuccess)
      end
  end.

Definition set_order_index (i : Z) (q : Question.t) : Question.t :=
  Question.mk (Question.id q) (Question.questionnaire_id q) (Question.question_text q)
              (Question.question_type q) (Question.options q) (Question.is_required q) i.

(** One turn of the loop of [reorder_questions]. *)
Definition reorder_step (questionnaire_id : Z) (session : Db) (item : nat * Z) : Db :=
  match get_question session (snd item) with
  | Some question =>
      if Question.questionnaire_id question =? questionnaire_id
      then with_questions session
             (update_question_rows (Question.id question)
                                   (set_order_index (Z.of_nat (fst item)))
                                   (questions session))
      else session
  | None => session
  end.

Definition reorder_questions (db : Db) (current_user : User.t)
    (questionnaire_id : option Z) (question_ids : list Z) : Db * ApiReply :=
  match questionnaire_id ≫= get_questionnaire db with
  | None => (db, ApiNotFound)
  | Some questionnaire =>
      if negb (can_edit_questionnaire current_user questionnaire) then (db, ApiDenied)
      else
        (foldl (reorder_step (Questionnaire.id questionnaire)) db
               (imap (fun i id => (i, id)) question_ids),
         ApiSuccess)
  end.

(** ** [app/api/routes.py]: responses *)

(** [Response.query.get(id)] *)
Definition get_response (db : Db) (id : Z) : option Response.t :=
  snd <$> list_find (fun r => Response.id r = id) (responses db).

(** [db.session.delete(response)]: the answers of the response go with it. *)
Definition delete_response (db : Db) (current_user : User.t) (response_id : Z)
  : Db * ApiReply :=
  match get_response db response_id with
  | None => (db, ApiNotFound)
  | Some response =>
      match get_questionnaire db (Response.questionnaire_id response) with
      | None => (db, ApiServerError)
      | Some questionnaire =>
          if negb (can_edit_questionnaire current_user questionnaire) then (db, ApiDenied)
          else
            (mkDb (users db) (questionnaires db) (questions db)
                  (filter (fun r => Response.id r ≠ Response.id response) (responses db))
                  (filter (fun a => Answer.response_id a ≠ Response.id response)
                          (answers db)),
             ApiSuccess)
      end
  end.

(** ** [app/questionnaire/forms.py] and [app/questionnaire/routes.py]:
       managing questionnaires *)

(** WTForms' [DataRequired]: the field has data that is not blank. *)
Definition data_required (data : option string) : bool :=
  match data with
  | Some s => negb (String.eqb (strip s) "")
  | None => false
  end.

(** WTForms' [Length(min, max)]; [None] is no bound.  Missing data has
    length 0. *)
Definition length_between (lo : nat) (hi : option nat) (data : option string) : bool :=
  let n := String.length (default "" data) in
  Nat.leb lo n && match hi with Some m => Nat.leb n m | None => true end.

(** WTForms' [Optional]: blank input ends the validation of the field. *)
Definition optional_blank (data : option string) : bool :=
  negb (data_required data).

(** The submitted [QuestionnaireForm]. *)
Record QuestionnaireFormData : Type := mkQuestionnaireFormData {
  form_title : option string;
  form_description : option string;
  form_is_public : bool;
  form_allow_anonymous : bool;
  form_allow_multiple_responses : bool
}.

Definition QuestionnaireForm_validate (f : QuestionnaireFormData) : bool :=
  (data_required (form_title f) && length_between 5 (Some 200%nat) (form_title f))
  && (optional_blank (form_description f)
      || length_between 0 (Some 1000%nat) (form_description f)).

Definition with_questionnaires (db : Db) (l : list Questionnaire.t) : Db :=
  mkDb (users db) l (questions db) (responses db) (answers db).

Inductive PageReply : Type :=
| PageNotFound
| PageForbidden        (* abort(403) *)
| PageRedirect         (* flash and redirect *)
| PageRendered.

(** [create]; the request is a POST carrying the form, or a GET. *)
Definition create (db : Db) (current_user : User.t) (submitted : option QuestionnaireFormData)
  : Db * PageReply :=
  if negb (is_creator current_user) then (db, PageRedirect)
  else
    match submitted with
    | Some f =>
        if QuestionnaireForm_validate f then
          let questionnaire :=
            Questionnaire.mk (next_id (Questionnaire.id <$> questionnaires db))
                             (default "" (form_title f))
                             (form_description f)
                             (User.id current_user)
                             true
                             (form_is_public f)
                             (form_allow_anonymous f)
                             (form_allow_multiple_responses f) in
          (with_questionnaires db (questionnaires db ++ [questionnaire]), PageRedirect)
        else (db, PageRendered)
    | None => (db, PageRendered)
    end.

(** The access check of [view]. *)
Definition view (db : Db) (current_user : option User.t) (id : Z) : PageReply :=
  match get_questionnaire db id with
  | None => PageNotFound
  | Some questionnaire =>
      match current_user with
      | Some u =>
          if negb (can_access_questionnaire u questionnaire) then PageForbidden
          else PageRendered
      | None =>
          if negb (Questionnaire.is_public questionnaire) then PageForbidden
          else PageRendered
      end
  end.

(** The query [list_questionnaires] builds before it orders and paginates. *)
Definition list_questionnaires (db : Db) (current_user : option User.t)
  : list Questionnaire.t :=
  match current_user with
  | Some u =>
      if is_admin u then
        filter (fun q => Questionnaire.is_active q = true) (questionnaires db)
      else
        filter (fun q => Questionnaire.is_active q = true
                         ∧ (Questionnaire.is_public q = true
                            ∨ Questionnaire.creator_id q = User.id u))
               (questionnaires db)
  | None =>
      filter (fun q => Questionnaire.is_active q = true ∧ Questionnaire.is_public q = true)
             (questionnaires db)
  end.

(** [db.session.delete(questionnaire)] with its cascades: the questions and
    responses of the questionnaire go, and with them their answers. *)
Definition delete_cascade (db : Db) (questionnaire : Questionnaire.t) : Db :=
  let gone_questions := Question.id <$> questions_of db (Questionnaire.id questionnaire) in
  let gone_responses := Response.id <$> responses_of db questionnaire in
  mkDb (users db)
       (filter (fun q => Questionnaire.id q ≠ Questionnaire.id questionnaire)
               (questionnaires db))
       (filter (fun q => Question.questionnaire_id q ≠ Questionnaire.id questionnaire)
               (questions db))
       (filter (fun r => Response.questionnaire_id r ≠ Questionnaire.id questionnaire)
               (responses db))
       (filter (fun a => (Answer.question_id a ∉ gone_questions)
                         ∧ (Answer.response_id a ∉ gone_responses))
               (answers db)).

Definition delete (db : Db) (current_user : User.t) (id : Z) : Db * PageReply :=
  match get_questionnaire db id with
  | None => (db, PageNotFound)
  | Some questionnaire =>
      if negb (can_edit_questionnaire current_user questionnaire) then (db, PageRedirect)
      else (delete_cascade db questionnaire, PageRedirect)
  end.

(** Writing through a loaded questionnaire. *)
Definition update_questionnaire (id : Z) (f : Questionnaire.t → Questionnaire.t)
    (l : list Questionnaire.t) : list Questionnaire.t :=
  (fun q => if Questionnaire.id q =? id then f q else q) <$> l.

(** The submitted [QuestionnaireSettingsForm]. *)
Record SettingsFormData : Type := mkSettingsFormData {
  settings_is_active : bool;
  settings_is_public : bool;
  settings_allow_anonymous : bool;
  settings_allow_multiple_responses : bool
}.

Definition apply_settings (f : SettingsFormData) (q : Questionnaire.t) : Questionnaire.t :=
  Questionnaire.mk (Questionnaire.id q) (Questionnaire.title q)
                   (Questionnaire.description q) (Questionnaire.creator_id q)
                   (settings_is_active f) (settings_is_public f)
                   (settings_allow_anonymous f) (settings_allow_multiple_responses f).

Definition settings (db : Db) (current_user : User.t) (id : Z)
    (submitted : option SettingsFormData) : Db * PageReply :=
  match get_questionnaire db id with
  | None => (db, PageNotFound)
  | Some questionnaire =>
      if negb (can_edit_questionnaire current_user questionnaire) then (db, PageRedirect)
      else
        match submitted with
        | Some f =>
            (with_questionnaires db
               (update_questionnaire (Questionnaire.id questionnaire) (apply_settings f)
                                     (questionnaires db)),
             PageRedirect)
        | None => (db, PageRendered)
        end
  end.

(** ** [app/admin/routes.py] *)

(** [User.query.get(id)] *)
Definition get_user (db : Db) (id : Z) : option User.t :=
  snd <$> list_find (fun u => User.id u = id) (users db).

Definition with_users (db : Db) (l : list User.t) : Db :=
  mkDb l (questionnaires db) (questions db) (responses db) (answers db).

(** Writing through a loaded user. *)
Definition update_user (id : Z) (f : User.t → User.t) (l : list User.t) : list User.t :=
  (fun u => if User.id u =? id then f u else u) <$> l.

Definition set_user_is_active (b : bool) (u : User.t) : User.t :=
  User.mk (User.id u) (User.username u) (User.email u) (User.role u) b.

Definition set_role (role : string) (u : User.t) : User.t :=
  User.mk (User.id u) (User.username u) (User.email u) role (User.is_active u).

(** The guard [login_required] followed by [admin_required] puts in front
    of a view. *)
Definition admin_required (current_user : option User.t) : bool :=
  match current_user with
  | Some u => is_admin u
  | None => false
  end.

Definition toggle_user_status (db : Db) (current_user : option User.t) (user_id : Z)
  : Db * PageReply :=
  match current_user with
  | Some admin =>
      if negb (is_admin admin) then (db, PageRedirect)
      else
        match get_user db user_id with
        | None => (db, PageNotFound)
        | Some user =>
            if User.id user =? User.id admin then (db, PageRedirect)
            else
              (with_users db
                 (update_user (User.id user)
                              (fun u => set_user_is_active (negb (User.is_active u)) u)
                              (users db)),
               PageRedirect)
        end
  | None => (db, PageRedirect)
  end.

(** [new_role not in ['user', 'creator', 'admin']]; a missing field is
    [None]. *)
Definition known_role (role : option string) : bool :=
  match role with
  | Some r => String.eqb r "user" || String.eqb r "creator" || String.eqb r "admin"
  | None => false
  end.

Definition change_user_role (db : Db) (current_user : option User.t) (user_id : Z)
    (new_role : option string) : Db * PageReply :=
  match current_user with
  | Some admin =>
      if negb (is_admin admin) then (db, PageRedirect)
      else
        match get_user db user_id with
        | None => (db, PageNotFound)
        | Some user =>
            if negb (known_role new_role) then (db, PageRedirect)
            else if (User.id user =? User.id admin)
                    && negb (String.eqb (default "" new_role) "admin")
            then (db, PageRedirect)
            else
              (with_users db
                 (update_user (User.id user) (set_role (default "" new_role)) (users db)),
               PageRedirect)
        end
  | None => (db, PageRedirect)
  end.

Definition set_questionnaire_is_active (b : bool) (q : Questionnaire.t) : Questionnaire.t :=
  Questionnaire.mk (Questionnaire.id q) (Questionnaire.title q)
                   (Questionnaire.description q) (Questionnaire.creator_id q)
                   b (Questionnaire.is_public q)
                   (Questionnaire.allow_anonymous q)
                   (Questionnaire.allow_multiple_responses q).

Definition toggle_questionnaire_status (db : Db) (current_user : option User.t)
    (questionnaire_id : Z) : Db * PageReply :=
  match current_user with
  | Some admin =>
      if negb (is_admin admin) then (db, PageRedirect)
      else
        match get_questionnaire db questionnaire_id with
        | None => (db, PageNotFound)
        | Some questionnaire =>
            (with_questionnaires db
               (update_questionnaire
                  (Questionnaire.id questionnaire)
                  (fun q => set_questionnaire_is_active (negb (Questionnaire.is_active q)) q)
                  (questionnaires db)),
             PageRedirect)
        end
  | None => (db, PageRedirect)
  end.

(** The lines [logs] shows, given the lines of the log file: the last 100,
    newest first. *)
Definition log_lines_shown (lines : list string) : list string :=
  reverse (if Nat.ltb 100 (length lines)
           then drop (length lines - 100) lines
           else lines).

(** ** [app/auth/forms.py] and [app/auth/routes.py]: registration *)

Record RegistrationFormData : Type := mkRegistrationFormData {
  reg_username : option string;
  reg_email : option string;
  reg_password : option string;
  reg_password2 : option string;
  reg_role : option string
}.

(** [User.query.filter_by(username=...).first()] *)
Definition find_by_username (db : Db) (username : string) : option User.t :=
  snd <$> list_find (fun u => User.username u = username) (users db).

(** [User.query.filter_by(email=...).first()] *)
Definition find_by_email (db : Db) (email : string) : option User.t :=
  snd <$> list_find (fun u => User.email u = email) (users db).

Section Registration.

(** WTForms' [Email()] check, which the application takes from a library. *)
Variable valid_email : string → bool.

(** The role field is a select over [user] and [creator] with default
    [user]. *)
Definition selected_role (f : RegistrationFormData) : string :=
  default "user" (reg_role f).

Definition RegistrationForm_validate (db : Db) (f : RegistrationFormData) : bool :=
  (data_required (reg_username f)
   && length_between 3 (Some 64%nat) (reg_username f)
   && bool_decide (find_by_username db (default "" (reg_username f)) = None))
  && (data_required (reg_email f)
      && valid_email (default "" (reg_email f))
      && bool_decide (find_by_email db (default "" (reg_email f)) = None))
  && (data_required (reg_password f) && length_between 6 None (reg_password f))
  && (data_required (reg_password2 f)
      && bool_decide (reg_password2 f = reg_password f))
  && (String.eqb (selected_role f) "user" || String.eqb (selected_role f) "creator").

Definition register (db : Db) (current_user : option User.t)
    (submitted : option RegistrationFormData) : Db * PageReply :=
  match current_user with
  | Some _ => (db, PageRedirect)
  | None =>
      match submitted with
      | Some f =>
          if RegistrationForm_validate db f then
            let user :=
              User.mk (next_id (User.id <$> users db))
                      (default "" (reg_username f))
                      (default "" (reg_email f))
                      (selected_role f)
                      true in
            (with_users db (users db ++ [user]), PageRedirect)
          else (db, PageRendered)
      | None => (db, PageRendered)
      end
  end.

End Registration.

(** ** [app/models/response.py]: display helpers *)

Section Display.

(** [str(x)] for a float, which Python computes from the binary value. *)
Variable str_of_float : pyfloat → string.


End Display.

(** [s[:n]] *)
Fixpoint string_take (n : nat) (s : string) : string :=
  match n, s with
  | S n', String c s' => String c (string_take n' s')
  | _, _ => EmptyString
  end.

Inductive RespondentInfo : Type :=
| Registered (username email : string) (id : option Z)
| Anonymous (ip_address user_agent : option string).

(** [Response.get_respondent_info]; [self.user] is the user row the
    foreign key points to, if there is one. *)
Definition get_respondent_info (db : Db) (self : Response.t) : RespondentInfo :=
  match Response.user_id self ≫= get_user db with
  | Some user => Registered (User.username user) (User.email user) (Response.user_id self)
  | None =>
      Anonymous (Response.ip_address self)
                (if Nat.ltb 100 (String.length (default "" (Response.user_agent self)))
                 then Some (string_take 100 (default "" (Response.user_agent self)) +:+ "...")
                 else Response.user_agent self)
  end.

(** ** [app/models/questionnaire.py] and [app/models/user.py]: counters *)

Record QuestionnaireStatistics : Type := mkQuestionnaireStatistics {
  questions_count : nat;
  responses_count : nat;
  completion_rate : Q
}.

(** [Questionnaire.get_statistics], without the two time stamps. *)
Definition get_statistics (db : Db) (self : Questionnaire.t) : QuestionnaireStatistics :=
  mkQuestionnaireStatistics
    (length (questions_of db (Questionnaire.id self)))
    (get_response_count db self)
    (get_completion_rate db self).

(** [User.get_questionnaire_stats]: (created, responded). *)
Definition get_questionnaire_stats (db : Db) (self : User.t) : nat * nat :=
  (length (filter (fun q => Questionnaire.creator_id q = User.id self) (questionnaires db)),
   length (filter (fun r => Response.user_id r = Some (User.id self)) (responses db))).

(** ** [app/main/routes.py]: search *)

Section Search.

(** [column.contains(query)] as the database evaluates the [LIKE] it is
    compiled to. *)
Variable contains : string → string → bool.

(** [title.contains(query) | description.contains(query)]; a description
    that is NULL does not match. *)
Definition search_filter (query : string) (q : Questionnaire.t) : bool :=
  contains (Questionnaire.title q) query
  || match Questionnaire.description q with
     | Some d => contains d query
     | None => false
     end.

(** The query [search] builds before it orders and paginates; [q] is the
    request argument of that name and [found] the query of the first lines,
    which a logged-in user replaces. *)
Definition search (db : Db) (current_user : option User.t) (q : option string)
  : list Questionnaire.t :=
  let query := strip (default "" q) in
  let found :=
    if negb (truthy (Some query)) then
      filter (fun x => Questionnaire.is_active x = true ∧ Questionnaire.is_public x = true)
             (questionnaires db)
    else
      filter (fun x => search_filter query x = true
                       ∧ Questionnaire.is_active x = true
                       ∧ Questionnaire.is_public x = true)
             (questionnaires db) in
  match current_user with
  | Some u =>
      if is_admin u then
        if negb (truthy (Some query)) then
          filter (fun x => Questionnaire.is_active x = true) (questionnaires db)
        else
          filter (fun x => search_filter query x = true ∧ Questionnaire.is_active x = true)
                 (questionnaires db)
      else
        if truthy (Some query) then
          filter (fun x => search_filter query x = true
                           ∧ Questionnaire.is_active x = true
                           ∧ (Questionnaire.is_public x = true
                              ∨ Questionnaire.creator_id x = User.id u))
                 (questionnaires db)
        else
          filter (fun x => Questionnaire.is_active x = true
                           ∧ (Questionnaire.is_public x = true
                              ∨ Questionnaire.creator_id x = User.id u))
                 (questionnaires db)
  | None => found
  end.

End Search.

(** ** Sample data *)

Definition carol : User.t := User.mk 3 "carol" "carol@example.org" "user" true.

Definition survey : Questionnaire.t :=
  Questionnaire.mk 1 "Survey" None 2 true true false false.

(** A database in which carol has one complete response to the survey. *)
Definition answered_db : Db :=
  mkDb [carol] [survey] []
       [Response.mk 1 1 (Some 3) 500 true (Some "10.0.0.7") (Some "")] [].

Definition rating : Question.t :=
  Question.mk 1 1 "How do you rate it?" "scale_1_5" [] true 0.

(** The survey with its single required scale question and no response. *)
Definition rating_db : Db := mkDb [carol] [survey] [rating] [] [].

Definition post (fields : list (string * string)) : Request :=
  mkRequest POST fields (Some "10.0.0.7") None 1000.

Definition choice : Question.t :=
  Question.mk 3 1 "Which ones?" "multiple_choice" ["A"; "B"; "C"] true 2.

(** The survey with a single multiple-choice question and no response. *)
Definition choice_db : Db := mkDb [carol] [survey] [choice] [] [].

Definition comment : Question.t :=
  Question.mk 2 1 "Any comment?" "open_ended" [] false 1.

(** Eleven complete anonymous responses to the survey, each with one answer
    to the open-ended question; the first answer has no text. *)
Definition feedback_db : Db :=
  mkDb [carol] [survey] [comment]
       ((fun i => Response.mk i 1 None 500 true None None) <$> seqZ 1 11)
       ((fun i => Answer.mk i i 2
                    (if i =? 1 then None else Some ("comment " +:+ str_of_int i))
                    None)
          <$> seqZ 1 11).

(** The survey opened to anonymous visitors, with its scale question. *)
Definition open_survey : Questionnaire.t :=
  Questionnaire.mk 1 "Survey" None 2 true true true false.

Definition open_db : Db := mkDb [carol] [open_survey] [rating] [] [].

(** ** Definitions used in the statements *)

(** The check of lines 172-176 on one question. *)
Definition passes_required (req : Request) (question : Question.t) : bool :=
  negb (Question.is_required question
        && negb (truthy (form_get (field_name question) (form req)))).

(** The value lines 192-198 hand to [set_value] for a question. *)
Definition stored_value (req : Request) (question : Question.t) : option string :=
  if String.eqb (Question.question_type question) "multiple_choice"
  then Some (join ", " (form_getlist (field_name question) (form req)))
  else form_get (field_name question) (form req).

Definition write (req : Request) (question : Question.t) (a : Answer.t) : Answer.t :=
  set_value a (stored_value req question) (Question.question_type question).

(** Key of the first answer row of a response for a question. *)
Definition find_answer_id (rid qid : Z) (rows : list Answer.t) : option Z :=
  (fun ia => Answer.id (snd ia))
    <$> list_find (fun a => Answer.response_id a = rid ∧ Answer.question_id a = qid) rows.

(** [store_answer] and one turn of the loop, read on the answers table. *)
Definition store_rows (rid : Z) (req : Request) (rows : list Answer.t)
    (question : Question.t) : list Answer.t :=
  match find_answer_id rid (Question.id question) rows with
  | Some i => update_answer i (write req question) rows
  | None =>
      rows ++ [write req question
                 (Answer.mk (next_id (Answer.id <$> rows)) rid (Question.id question)
                            None None)]
  end.

Definition rows_step (rid : Z) (req : Request) (rows : list Answer.t)
    (question : Question.t) : list Answer.t :=
  if truthy (form_get (field_name question) (form req))
  then store_rows rid req rows question
  else rows.

(** Every question of [qs] that carries a value already has its answer row. *)
Definition covered (rid : Z) (req : Request) (qs : list Question.t)
    (rows : list Answer.t) : Prop :=
  ∀ q, q ∈ qs → truthy (form_get (field_name q) (form req)) = true →
       is_Some (find_answer_id rid (Question.id q) rows).

(** The conditions under which a request reaches a commit. *)
Definition accepted (db : Db) (user : option User.t) (id : Z) (req : Request)
  : option Questionnaire.t :=
  match get_questionnaire db id with
  | Some q =>
      if Questionnaire.is_active q && can_user_respond db q user
         && match method req with POST => true | GET => false end
         && forallb (passes_required req) (get_questions db q)
      then Some q else None
  | None => None
  end.

(** What the commit writes on the response. *)
Definition finish (req : Request) (r : Response.t) : Response.t :=
  if form_has "save_draft" (form req) then set_is_complete false r
  else set_submitted_at (utcnow req) (set_is_complete true r).

(** The database a commit publishes. *)
Definition committed (db : Db) (user : option User.t) (q : Questionnaire.t)
    (req : Request) : Db :=
  let '(session0, rid) := get_or_create_response db q user req in
  mkDb (users db) (questionnaires db) (questions db)
       (update_response rid (finish req) (responses session0))
       (foldl (rows_step rid req) (answers db) (get_questions db q)).

(** The response row [get_or_create_response] inserts. *)
Definition new_response (db : Db) (q : Questionnaire.t) (user : option User.t)
    (req : Request) : Response.t :=
  Response.mk (next_id (Response.id <$> responses db)) (Questionnaire.id q)
              (User.id <$> user) (utcnow req) false (remote_addr req)
              (Some (default "" (header_user_agent req))).

(** The answer has a non-empty text. *)
Abbreviation has_text := (fun a : Answer.t => truthy (Answer.answer_text a) = true).

(** "The first [n] non-empty answer texts", as the specification words the
    open-ended sample. *)
Definition first_nonempty_texts (n : nat) (l : list Answer.t) : list string :=
  take n (omap Answer.answer_text (filter has_text l)).

(** The specification's reading of the open-ended statistics. *)
Definition samples_fill_to_ten (db : Db) (question : Question.t) : Prop :=
  ∃ stats, get_answer_statistics db question = Ok stats
           ∧ sample_responses stats
             = Some (first_nonempty_texts 10 (complete_answers db question)).


(** The character occurs in the string. *)
Fixpoint has_char (c : ascii) (s : string) : bool :=
  match s with
  | String c' s' => Ascii.eqb c' c || has_char c s'
  | EmptyString => false
  end.

(** An option value that survives the comma-joined storage form: not empty,
    free of commas and of surrounding white space. *)
Definition clean (o : string) : Prop :=
  o ≠ "" ∧ has_char "," o = false ∧ strip o = o.

(** The (response, question) pair an answer row belongs to. *)
Definition answer_key (a : Answer.t) : Z * Z :=
  (Answer.response_id a, Answer.question_id a).

(** The survey with its scale question, already answered by user 7. *)
Definition rated_response : Response.t := Response.mk 1 1 (Some 7) 500 true None None.

Definition rated_db : Db :=
  mkDb [carol] [survey] [rating] [rated_response]
       [Answer.mk 1 1 1 None (Some (Finite 4))].

(** The creator of the survey, and an administrator. *)
Definition dave : User.t := User.mk 2 "dave" "dave@example.org" "creator" true.

Definition erin : User.t := User.mk 9 "erin" "erin@example.org" "admin" true.

(** A request to add a yes/no question to the survey. *)
Definition yes_no : QuestionData :=
  mkQuestionData (Some 1) (Some "Would you come again?") (Some "single_choice")
                 (Some true) (Some ["  yes "; ""; "no"]).

(** Every question and response belongs to a questionnaire of the table, and
    every answer to a question and a response of their tables: what the
    foreign keys and the cascades are there to keep. *)
Definition referential_integrity (db : Db) : Prop :=
  (∀ q, q ∈ questions db →
        ∃ qn, qn ∈ questionnaires db ∧ Questionnaire.id qn = Question.questionnaire_id q)
  ∧ (∀ r, r ∈ responses db →
          ∃ qn, qn ∈ questionnaires db ∧ Questionnaire.id qn = Response.questionnaire_id r)
  ∧ (∀ a, a ∈ answers db →
          (∃ q, q ∈ questions db ∧ Question.id q = Answer.question_id a)
          ∧ (∃ r, r ∈ responses db ∧ Response.id r = Answer.response_id a)).

(** Questions compared by their index. *)
Definition by_order_index (a b : Question.t) : Prop :=
  Question.order_index a ≤ Question.order_index b.

(** [i] does not come after [j] in the list [ids]. *)
Definition not_after (ids : list Z) (i j : Z) : Prop :=
  ∀ pi pj : nat, ids !! pi = Some i → ids !! pj = Some j → (pi ≤ pj)%nat.

(** The key of each question and the questionnaire it belongs to. *)
Definition question_skeleton (l : list Question.t) : list (Z * Z) :=
  (fun x => (Question.id x, Question.questionnaire_id x)) <$> l.

(** The survey with its scale question followed by the open-ended one. *)
Definition two_questions_db : Db := mkDb [carol; dave] [survey] [rating; comment] [] [].

(** [math.isfinite] *)
Definition isfinite (x : pyfloat) : bool :=
  match x with
  | Finite _ => true
  | _ => false
  end.

(** The columns of a user that identify the account. *)
Definition account (u : User.t) : Z * string * string :=
  (User.id u, User.username u, User.email u).

(** The rows the join of [complete_answers] yields for one answer: one per
    completed response with the key the answer refers to. *)
Definition joined (rs : list Response.t) (a : Answer.t) : list Answer.t :=
  (fun _ => a) <$> filter (fun r => Response.id r = Answer.response_id a
                                    ∧ Response.is_complete r = true) rs.

(** The key under which the scale statistics count an answer: the printed
    integer part of its value. *)
Definition scale_key (a : Answer.t) : option string :=
  match Answer.answer_value a with
  | Some (Finite q) => Some (str_of_int (Z.quot (Qnum q) (Z.pos (Qden q))))
  | _ => None
  end.

(** * Properties *)

(** ** Permission policy *)

Lemma is_admin_true (u : User.t) : is_admin u = true ↔ User.role u = "admin".
Proof. unfold is_admin. apply String.eqb_eq. Qed.

(** C3. For every authenticated actor and questionnaire, editing is allowed
    exactly when the actor's role is admin or the actor is the creator, and
    access is allowed exactly when the role is admin, the actor is the creator
    or the questionnaire is public. *)
Theorem permission_matrix (actor : User.t) (q : Questionnaire.t) :
  (can_edit_questionnaire actor q = true
   ↔ User.role actor = "admin" ∨ Questionnaire.creator_id q = User.id actor)
  ∧ (can_access_questionnaire actor q = true
     ↔ User.role actor = "admin" ∨ Questionnaire.creator_id q = User.id actor
       ∨ Questionnaire.is_public q = true).
Proof.
  unfold can_edit_questionnaire, can_access_questionnaire.
  pose proof (is_admin_true actor) as Hadm.
  destruct (is_admin actor).
  - split; split; auto; intros _; left; by apply Hadm.
  - assert (User.role actor ≠ "admin") as Hna by (intros E; apply Hadm in E; done).
    destruct (Z.eqb_spec (Questionnaire.creator_id q) (User.id actor)) as [Ec | Ec].
    + split; split; auto.
    + split; split.
      * done.
      * intros [E | E]; done.
      * destruct (Questionnaire.is_public q); [auto | done].
      * intros [E | [E | E]]; [done | done | by rewrite E].
Qed.

Lemma user_has_responded_true (db : Db) (q : Questionnaire.t) (uid : Z) :
  uid ≠ 0 →
  user_has_responded db q uid = true
  ↔ ∃ r, r ∈ responses db
         ∧ Response.questionnaire_id r = Questionnaire.id q
         ∧ Response.user_id r = Some uid
         ∧ Response.is_complete r = true.
Proof.
  intros Hid. unfold user_has_responded.
  destruct (Z.eqb_spec uid 0) as [E | _]; [done |].
  destruct (list_find _ _) as [[i r] |] eqn:Hf.
  - apply list_find_Some in Hf as (Hi & [Hu Hc] & _).
    apply list_elem_of_lookup_2 in Hi. unfold responses_of in Hi.
    apply list_elem_of_filter in Hi as [Hq Hin].
    split; [intros _ | done]. by exists r.
  - split; [done |]. intros (r & Hin & Hq & Hu & Hc).
    apply list_find_None in Hf. rewrite Forall_forall in Hf.
    exfalso. apply (Hf r); [| done].
    unfold responses_of. by apply list_elem_of_filter.
Qed.

(** C4. [can_user_respond] refuses exactly in three cases: the questionnaire
    is inactive; there is no actor and anonymous responses are not allowed;
    the actor is present, multiple responses are not allowed and the actor
    already has a complete response to the questionnaire.  In every other
    case it accepts, so drafts never block.  User keys are allocated from 1,
    hence the side condition on the actor's id. *)
Theorem can_user_respond_spec (db : Db) (q : Questionnaire.t) (actor : option User.t) :
  (∀ u, actor = Some u → User.id u ≠ 0) →
  can_user_respond db q actor = false
  ↔ Questionnaire.is_active q = false
    ∨ (actor = None ∧ Questionnaire.allow_anonymous q = false)
    ∨ (∃ u r, actor = Some u
              ∧ Questionnaire.allow_multiple_responses q = false
              ∧ r ∈ responses db
              ∧ Response.questionnaire_id r = Questionnaire.id q
              ∧ Response.user_id r = Some (User.id u)
              ∧ Response.is_complete r = true).
Proof.
  intros Hid. unfold can_user_respond.
  destruct (Questionnaire.is_active q); simpl; [| by split; auto].
  destruct actor as [u |]; simpl.
  - pose proof (user_has_responded_true db q (User.id u) (Hid u eq_refl)) as Hr.
    destruct (Questionnaire.allow_multiple_responses q); simpl.
    + split; [done |].
      intros [E | [[E _] | (u' & r & _ & E & _)]]; done.
    + destruct (user_has_responded db q (User.id u)).
      * split; [intros _ | done]. right; right.
        destruct Hr as [Hr _]. destruct (Hr eq_refl) as (r & H1 & H2 & H3 & H4).
        by exists u, r.
      * split; [done |].
        intros [E | [[E _] | (u' & r & [= <-] & _ & H1 & H2 & H3 & H4)]]; [done | done |].
        destruct Hr as [_ Hr]. enough (false = true) by done.
        apply Hr. by exists r.
  - destruct (Questionnaire.allow_anonymous q); simpl.
    + split; [done |].
      intros [E | [[_ E] | (u' & r & E & _)]]; done.
    + split; auto.
Qed.

Lemma can_user_respond_spec_witness :
  can_user_respond answered_db survey (Some carol) = false
  ↔ Questionnaire.is_active survey = false
    ∨ (Some carol = None ∧ Questionnaire.allow_anonymous survey = false)
    ∨ (∃ u r, Some carol = Some u
              ∧ Questionnaire.allow_multiple_responses survey = false
              ∧ r ∈ responses answered_db
              ∧ Response.questionnaire_id r = Questionnaire.id survey
              ∧ Response.user_id r = Some (User.id u)
              ∧ Response.is_complete r = true).
Proof.
  apply (can_user_respond_spec answered_db survey (Some carol)).
  intros u [= <-]. simpl. lia.
Defined.

(** ** Rounding to two decimals *)

Lemma round_half_even_comp (x y : Q) : (x == y)%Q → round_half_even x = round_half_even y.
Proof.
  intros E. unfold round_half_even.
  rewrite (Qfloor_comp x y E).
  assert (Qcompare (x - inject_Z (Qfloor y)) (1 # 2)
          = Qcompare (y - inject_Z (Qfloor y)) (1 # 2)) as ->.
  { apply Qcompare_comp; [by rewrite E | reflexivity]. }
  reflexivity.
Qed.


Lemma round2_comp (x y : Q) : (x == y)%Q → round2 x = round2 y.
Proof.
  intros E. unfold round2.
  rewrite (round_half_even_comp (x * inject_Z 100) (y * inject_Z 100)); [done |].
  by rewrite E.
Qed.



(** ** Derived statistics *)




(** ** Response intake: validation *)

Lemma process_question_valid (rid : Z) (req : Request) (st : Processing) (question : Question.t) :
  valid_submission (process_question rid req st question)
  = valid_submission st && passes_required req question.
Proof.
  unfold process_question, passes_required.
  destruct (Question.is_required question), (truthy _); simpl;
    by rewrite ?andb_true_r, ?andb_false_r.
Qed.

Lemma foldl_process_valid (rid : Z) (req : Request) (qs : list Question.t) (st : Processing) :
  valid_submission (foldl (process_question rid req) st qs)
  = valid_submission st && forallb (passes_required req) qs.
Proof.
  revert st. induction qs as [| question qs IH]; intros st; simpl.
  - by rewrite andb_true_r.
  - rewrite IH, process_question_valid. by rewrite andb_assoc.
Qed.

Lemma process_answers_valid (s : Db) (rid : Z) (req : Request) (qs : list Question.t) :
  valid_submission (process_answers s rid req qs) = forallb (passes_required req) qs.
Proof. unfold process_answers. by rewrite foldl_process_valid. Qed.

(** C2. A submission in which some required question of the questionnaire
    has an empty value leaves the database as it was: the response is not
    completed and no row written during the attempt is kept. *)
Theorem respond_missing_required_discards
    (db : Db) (actor : option User.t) (id : Z) (req : Request)
    (q : Questionnaire.t) (question : Question.t) :
  get_questionnaire db id = Some q →
  question ∈ get_questions db q →
  Question.is_required question = true →
  truthy (form_get (field_name question) (form req)) = false →
  (respond db actor id req).1.1 = db.
Proof.
  intros Hq Hin Hreq Hempty. unfold respond. rewrite Hq.
  destruct (negb (Questionnaire.is_active q)); [done |].
  destruct (negb (can_user_respond db q actor)).
  { destruct (_ && _); [done |]. by destruct (match actor with Some _ => _ | None => _ end). }
  destruct (method req); [done |].
  destruct (get_or_create_response db q actor req) as [s0 rid].
  rewrite process_answers_valid.
  assert (forallb (passes_required req) (get_questions db q) = false) as ->; [| done].
  apply not_true_is_false. intros Hall.
  rewrite forallb_forall in Hall.
  apply list_elem_of_In in Hin. specialize (Hall question Hin).
  unfold passes_required in Hall. by rewrite Hreq, Hempty in Hall.
Qed.

Lemma respond_missing_required_discards_witness :
  (respond rating_db (Some carol) 1 (post [("question_1", "")])).1.1 = rating_db.
Proof.
  apply (respond_missing_required_discards rating_db (Some carol) 1
           (post [("question_1", "")]) survey rating).
  - reflexivity.
  - vm_compute. constructor.
  - reflexivity.
  - reflexivity.
Defined.

(** ** Response intake: the answers table *)

Lemma next_id_fresh (ids : list Z) (x : Z) : x ∈ ids → x < next_id ids.
Proof.
  unfold next_id. induction 1 as [x l | x y l _ IH]; simpl; lia.
Qed.

Lemma update_answer_fresh (n : Z) (f : Answer.t → Answer.t) (rows : list Answer.t) :
  (∀ a, a ∈ rows → Answer.id a ≠ n) → update_answer n f rows = rows.
Proof.
  intros Hfresh. unfold update_answer.
  induction rows as [| a rows IH]; simpl; [done |].
  destruct (Z.eqb_spec (Answer.id a) n) as [E | _].
  - exfalso. apply (Hfresh a); [left | done].
  - f_equal. apply IH. intros b Hb. apply Hfresh. by right.
Qed.

Lemma update_answer_next_id (f : Answer.t → Answer.t) (rows : list Answer.t) :
  update_answer (next_id (Answer.id <$> rows)) f rows = rows.
Proof.
  apply update_answer_fresh. intros a Ha E.
  assert (Answer.id a < next_id (Answer.id <$> rows)) as Hlt.
  { apply next_id_fresh. by apply list_elem_of_fmap_2. }
  lia.
Qed.

Lemma update_answer_app (n : Z) (f : Answer.t → Answer.t) (l k : list Answer.t) :
  update_answer n f (l ++ k) = update_answer n f l ++ update_answer n f k.
Proof. unfold update_answer. apply fmap_app. Qed.

Lemma write_id req question a : Answer.id (write req question a) = Answer.id a.
Proof. unfold write, set_value. by repeat case_match. Qed.

Lemma write_response_id req question a :
  Answer.response_id (write req question a) = Answer.response_id a.
Proof. unfold write, set_value. by repeat case_match. Qed.

Lemma write_question_id req question a :
  Answer.question_id (write req question a) = Answer.question_id a.
Proof. unfold write, set_value. by repeat case_match. Qed.


Lemma store_answer_rows (s : Db) (rid : Z) (question : Question.t) (req : Request) :
  store_answer s rid question req (form_get (field_name question) (form req))
  = with_answers s (store_rows rid req (answers s) question).
Proof.
  unfold store_answer, store_rows, find_answer_id. f_equal.
  destruct (list_find _ (answers s)) as [[i a] |]; simpl; [done |].
  rewrite update_answer_app, update_answer_next_id. f_equal.
  unfold update_answer. simpl. by rewrite Z.eqb_refl.
Qed.

Lemma process_question_session (rid : Z) (req : Request) (st : Processing)
    (question : Question.t) :
  session (process_question rid req st question)
  = with_answers (session st) (rows_step rid req (answers (session st)) question).
Proof.
  unfold process_question, rows_step.
  destruct (truthy (form_get _ _)) eqn:Ht; simpl.
  - rewrite andb_false_r. simpl. apply store_answer_rows.
  - destruct (Question.is_required question); simpl; by destruct (session st).
Qed.

Lemma foldl_process_session (rid : Z) (req : Request) (qs : list Question.t)
    (st : Processing) :
  session (foldl (process_question rid req) st qs)
  = with_answers (session st) (foldl (rows_step rid req) (answers (session st)) qs).
Proof.
  revert st. induction qs as [| question qs IH]; intros st; simpl.
  - by destruct (session st).
  - rewrite IH, process_question_session. by destruct (session st).
Qed.

(** *** Writes in place absorb and commute *)

Lemma find_answer_id_update (rid qid i : Z) req question (rows : list Answer.t) :
  find_answer_id rid qid (update_answer i (write req question) rows)
  = find_answer_id rid qid rows.
Proof.
  unfold find_answer_id, update_answer.
  rewrite list_find_fmap.
  rewrite (list_find_ext _ (λ a, Answer.response_id a = rid ∧ Answer.question_id a = qid)).
  - destruct (list_find _ rows) as [[n a] |]; simpl; [| done].
    destruct (Answer.id a =? i); by rewrite ?write_id.
  - intros a. simpl. destruct (Answer.id a =? i);
      by rewrite ?write_response_id, ?write_question_id.
Qed.

Lemma find_answer_id_elem (rid qid i : Z) (rows : list Answer.t) :
  find_answer_id rid qid rows = Some i →
  ∃ a, a ∈ rows ∧ Answer.id a = i
       ∧ Answer.response_id a = rid ∧ Answer.question_id a = qid.
Proof.
  unfold find_answer_id. destruct (list_find _ rows) as [[n a] |] eqn:Hf; [| done].
  intros [= <-]. apply list_find_Some in Hf as (Hn & [Hr Hq] & _).
  exists a. split; [by eapply list_elem_of_lookup_2 | done].
Qed.



Lemma update_answer_ids (i : Z) req question (rows : list Answer.t) :
  Answer.id <$> update_answer i (write req question) rows = Answer.id <$> rows.
Proof.
  unfold update_answer. rewrite <- list_fmap_compose.
  apply list_fmap_ext. intros _ a _. simpl.
  destruct (Answer.id a =? i); by rewrite ?write_id.
Qed.

(** *** One turn of the loop *)



Lemma rows_step_new rid req rows q :
  truthy (form_get (field_name q) (form req)) = true →
  find_answer_id rid (Question.id q) rows = None →
  rows_step rid req rows q
  = rows ++ [write req q (Answer.mk (next_id (Answer.id <$> rows)) rid (Question.id q)
                                    None None)].
Proof. unfold rows_step, store_rows. by intros -> ->. Qed.

Lemma find_answer_id_app_l rid qid (l k : list Answer.t) :
  is_Some (find_answer_id rid qid l) →
  find_answer_id rid qid (l ++ k) = find_answer_id rid qid l.
Proof.
  unfold find_answer_id. destruct (list_find _ l) as [[n a] |] eqn:Hf.
  - intros _. by rewrite (list_find_app_l _ _ _ _ _ Hf).
  - by intros [? ?].
Qed.

(** A turn keeps the rows that are there findable, and makes its own. *)
Lemma rows_step_keeps rid req rows q qid :
  is_Some (find_answer_id rid qid rows) →
  find_answer_id rid qid (rows_step rid req rows q) = find_answer_id rid qid rows.
Proof.
  intros Hs. unfold rows_step, store_rows.
  destruct (truthy _); [| done].
  destruct (find_answer_id rid (Question.id q) rows) as [i |].
  - apply find_answer_id_update.
  - by apply find_answer_id_app_l.
Qed.

Lemma rows_step_makes rid req rows q :
  truthy (form_get (field_name q) (form req)) = true →
  is_Some (find_answer_id rid (Question.id q) (rows_step rid req rows q)).
Proof.
  intros Ht. destruct (find_answer_id rid (Question.id q) rows) as [i |] eqn:Hf.
  - rewrite rows_step_keeps; by rewrite Hf.
  - rewrite (rows_step_new _ _ _ _ Ht Hf). unfold find_answer_id in *.
    destruct (list_find _ rows) as [[n a] |] eqn:Hl; [done |].
    rewrite (list_find_app_r _ _ _ Hl). simpl.
    rewrite decide_True; [done |].
    by rewrite write_response_id, write_question_id.
Qed.

Lemma covered_step rid req qs rows q :
  covered rid req qs rows → covered rid req qs (rows_step rid req rows q).
Proof.
  intros Hc p Hp Ht. rewrite rows_step_keeps; by apply Hc.
Qed.

Lemma covered_foldl rid req qs rows :
  covered rid req qs (foldl (rows_step rid req) rows qs).
Proof.
  induction qs as [| q qs IH] using rev_ind; [by intros p Hp%elem_of_nil |].
  rewrite foldl_snoc. intros p Hp Ht.
  apply elem_of_app in Hp as [Hp | Hp%list_elem_of_singleton].
  - rewrite rows_step_keeps; by apply IH.
  - subst p. by apply rows_step_makes.
Qed.



(** *** Running the loop twice *)





(** ** Response intake: the view as a whole *)

Lemma respond_rejected db user id req :
  accepted db user id req = None → (respond db user id req).1.1 = db.
Proof.
  unfold accepted, respond.
  destruct (get_questionnaire db id) as [q |]; [| done].
  destruct (Questionnaire.is_active q); simpl; [| done].
  destruct (can_user_respond db q user); simpl.
  - destruct (method req); simpl; [done |].
    destruct (get_or_create_response db q user req) as [s0 rid].
    rewrite process_answers_valid.
    by destruct (forallb _ _).
  - intros _. destruct (_ && _); [done |].
    by destruct (match user with Some _ => _ | None => _ end).
Qed.

Lemma get_or_create_response_answers db q user req :
  answers (get_or_create_response db q user req).1 = answers db.
Proof. unfold get_or_create_response. by destruct (user ≫= find_draft db q). Qed.

Lemma respond_accepted db user id req q :
  accepted db user id req = Some q → (respond db user id req).1.1 = committed db user q req.
Proof.
  unfold accepted, respond, committed.
  destruct (get_questionnaire db id) as [q' |]; [| done].
  destruct (Questionnaire.is_active q'); simpl; [| done].
  destruct (can_user_respond db q' user); simpl; [| done].
  destruct (method req); simpl; [done |].
  destruct (forallb _ _) eqn:Hv; [| done]. intros [= ->].
  pose proof (get_or_create_response_answers db q user req) as Ha.
  assert (users (get_or_create_response db q user req).1 = users db
          ∧ questionnaires (get_or_create_response db q user req).1 = questionnaires db
          ∧ questions (get_or_create_response db q user req).1 = questions db)
    as (Hu & Hqn & Hqs).
  { unfold get_or_create_response. by destruct (user ≫= find_draft db q). }
  destruct (get_or_create_response db q user req) as [s0 rid]. simpl in *.
  rewrite process_answers_valid, Hv.
  unfold process_answers, finish. rewrite foldl_process_session. simpl.
  destruct (form_has _ _); unfold with_responses, with_answers; simpl;
    by rewrite Ha, Hu, Hqn, Hqs.
Qed.

(** ** Response intake: the responses table *)

Lemma update_response_fresh (n : Z) (f : Response.t → Response.t) (l : list Response.t) :
  (∀ r, r ∈ l → Response.id r ≠ n) → update_response n f l = l.
Proof.
  intros Hfresh. unfold update_response.
  induction l as [| r l IH]; simpl; [done |].
  destruct (Z.eqb_spec (Response.id r) n) as [E | _].
  - exfalso. apply (Hfresh r); [left | done].
  - f_equal. apply IH. intros b Hb. apply Hfresh. by right.
Qed.

Lemma update_response_next_id (f : Response.t → Response.t) (l : list Response.t) :
  update_response (next_id (Response.id <$> l)) f l = l.
Proof.
  apply update_response_fresh. intros r Hr E.
  assert (Response.id r < next_id (Response.id <$> l)) as Hlt
    by by apply next_id_fresh, list_elem_of_fmap_2.
  lia.
Qed.





Lemma elem_of_update_response (i : Z) (f : Response.t → Response.t)
    (l : list Response.t) (r : Response.t) :
  r ∈ update_response i f l → r ∈ l ∨ ∃ r0, r0 ∈ l ∧ r = f r0.
Proof.
  unfold update_response. intros (r0 & -> & Hin)%list_elem_of_fmap.
  destruct (Response.id r0 =? i); [right; by exists r0 | by left].
Qed.

(** ** Response intake: saving a draft twice *)

Lemma accepted_inv db user id req q :
  accepted db user id req = Some q →
  get_questionnaire db id = Some q
  ∧ Questionnaire.is_active q = true
  ∧ can_user_respond db q user = true
  ∧ method req = POST
  ∧ forallb (passes_required req) (get_questions db q) = true.
Proof.
  unfold accepted. destruct (get_questionnaire db id) as [q' |]; [| done].
  destruct (Questionnaire.is_active q') eqn:Ha; simpl; [| done].
  destruct (can_user_respond db q' user) eqn:Hc; simpl; [| done].
  destruct (method req); simpl; [done |].
  destruct (forallb _ _) eqn:Hv; [| done]. intros [= <-]. by repeat split.
Qed.



Lemma finish_draft req :
  form_has "save_draft" (form req) = true → finish req = set_is_complete false.
Proof. unfold finish. by intros ->. Qed.

Lemma committed_found db u q req r :
  find_draft db q u = Some r →
  committed db (Some u) q req
  = mkDb (users db) (questionnaires db) (questions db)
         (update_response (Response.id r) (finish req) (responses db))
         (foldl (rows_step (Response.id r) req) (answers db) (get_questions db q)).
Proof. unfold committed, get_or_create_response. simpl. by intros ->. Qed.

Lemma committed_new db user q req :
  user ≫= find_draft db q = None →
  committed db user q req
  = mkDb (users db) (questionnaires db) (questions db)
         (update_response (Response.id (new_response db q user req)) (finish req)
                          (responses db ++ [new_response db q user req]))
         (foldl (rows_step (Response.id (new_response db q user req)) req)
                (answers db) (get_questions db q)).
Proof. unfold committed, get_or_create_response. by intros ->. Qed.

Lemma update_new_response db q user req f :
  update_response (Response.id (new_response db q user req)) f
                  (responses db ++ [new_response db q user req])
  = responses db ++ [f (new_response db q user req)].
Proof.
  unfold update_response at 1. rewrite fmap_app. f_equal.
  - apply update_response_next_id.
  - simpl. by rewrite Z.eqb_refl.
Qed.




(** ** Response intake: a scale answer that does not parse *)

Lemma list_find_filter_and {A} (P Q : A → Prop) `{∀ x, Decision (P x)}
    `{∀ x, Decision (Q x)} (l : list A) :
  snd <$> list_find Q (filter P l) = snd <$> list_find (λ x, P x ∧ Q x) l.
Proof.
  induction l as [| x l IH]; [done |].
  rewrite filter_cons. simpl.
  destruct (decide (P x)) as [HP | HP]; simpl.
  - destruct (decide (Q x)) as [HQ | HQ].
    + by rewrite decide_True.
    + rewrite decide_False by tauto.
      destruct (list_find Q (filter P l)) as [[? ?] |],
               (list_find (λ x, P x ∧ Q x) l) as [[? ?] |]; simpl in *; congruence.
  - rewrite decide_False by tauto.
    destruct (list_find Q (filter P l)) as [[? ?] |],
             (list_find (λ x, P x ∧ Q x) l) as [[? ?] |]; simpl in *; congruence.
Qed.

Lemma get_answer_for_question_find (db : Db) (r : Response.t) (qid : Z) :
  get_answer_for_question db r qid
  = snd <$> list_find (λ a, Answer.response_id a = Response.id r
                            ∧ Answer.question_id a = qid) (answers db).
Proof. unfold get_answer_for_question, answers_of. apply list_find_filter_and. Qed.

(** After a turn that stores a value, the row the queries find for the
    question is a written one. *)
Lemma rows_step_stored rid req rows question :
  truthy (form_get (field_name question) (form req)) = true →
  ∃ a0, snd <$> list_find (λ a, Answer.response_id a = rid
                                ∧ Answer.question_id a = Question.id question)
                          (rows_step rid req rows question)
        = Some (write req question a0).
Proof.
  intros Ht. unfold rows_step, store_rows, find_answer_id. rewrite Ht.
  destruct (list_find _ rows) as [[n a] |] eqn:Hl; simpl.
  - exists a. unfold update_answer. rewrite list_find_fmap.
    rewrite (list_find_ext _ (λ a, Answer.response_id a = rid
                                   ∧ Answer.question_id a = Question.id question)).
    + rewrite Hl. simpl. by rewrite Z.eqb_refl.
    + intros x. simpl. destruct (Answer.id x =? Answer.id a);
        by rewrite ?write_response_id, ?write_question_id.
  - eexists. rewrite (list_find_app_r _ _ _ Hl). simpl.
    rewrite decide_True; [done |].
    by rewrite write_response_id, write_question_id.
Qed.

Lemma write_unparsable req question a v :
  Question.question_type question = "scale_1_5" →
  form_get (field_name question) (form req) = Some v →
  float_of_string v = None →
  Answer.answer_text (write req question a) = None
  ∧ Answer.answer_value (write req question a) = None.
Proof.
  intros Hty Hv Hf. unfold write, stored_value, set_value.
  rewrite Hty, Hv. simpl. by rewrite Hf.
Qed.

Lemma elem_of_update_response_hit (f : Response.t → Response.t)
    (l : list Response.t) (x : Response.t) :
  x ∈ l → f x ∈ update_response (Response.id x) f l.
Proof.
  intros Hx. unfold update_response. apply list_elem_of_fmap.
  exists x. by rewrite Z.eqb_refl.
Qed.

Lemma find_draft_elem db q u r :
  find_draft db q u = Some r → r ∈ responses db.
Proof.
  unfold find_draft. destruct (list_find _ _) as [[i x] |] eqn:Hl; [| done].
  intros [= <-]. apply list_find_Some in Hl as (Hi & _). by eapply list_elem_of_lookup_2.
Qed.

(** The response a commit works on is in the committed database, with the
    commit's changes. *)
Lemma committed_response db user q req :
  ∃ r0, finish req r0 ∈ responses (committed db user q req)
        ∧ answers (committed db user q req)
          = foldl (rows_step (Response.id r0) req) (answers db) (get_questions db q).
Proof.
  destruct (user ≫= find_draft db q) as [r |] eqn:Hfd.
  - destruct user as [u |]; [| done]. simpl in Hfd.
    exists r. rewrite (committed_found db u q req r Hfd). simpl. split; [| done].
    apply elem_of_update_response_hit. by eapply find_draft_elem.
  - exists (new_response db q user req). rewrite (committed_new db user q req Hfd).
    cbn [responses answers]. split; [| done].
    apply elem_of_update_response_hit, elem_of_app. right. by left.
Qed.

(** C1 (amended). A final submission whose value for the single scale
    question is a non-empty string that [float] rejects is committed: the
    response becomes complete, stamped with the time of the request, and
    the answer the response holds for the question has neither text nor
    value. *)
Theorem unparsable_scale_is_completed
    (db : Db) (user : option User.t) (id : Z) (req : Request)
    (q : Questionnaire.t) (question : Question.t) (v : string) :
  get_questionnaire db id = Some q →
  Questionnaire.is_active q = true →
  can_user_respond db q user = true →
  get_questions db q = [question] →
  Question.question_type question = "scale_1_5" →
  method req = POST →
  form_has "save_draft" (form req) = false →
  form_get (field_name question) (form req) = Some v →
  v ≠ "" →
  float_of_string v = None →
  ∃ r a, r ∈ responses (respond db user id req).1.1
         ∧ Response.is_complete r = true
         ∧ Response.submitted_at r = utcnow req
         ∧ get_answer_for_question (respond db user id req).1.1 r (Question.id question)
           = Some a
         ∧ Answer.answer_text a = None
         ∧ Answer.answer_value a = None.
Proof.
  intros Hq Hact Hcan Hqs Hty Hpost Hfinal Hv Hne Hfloat.
  assert (truthy (form_get (field_name question) (form req)) = true) as Ht
    by (rewrite Hv; by destruct v).
  assert (accepted db user id req = Some q) as Hacc.
  { unfold accepted. rewrite Hq, Hact, Hcan, Hpost, Hqs. simpl.
    unfold passes_required. rewrite Ht. simpl. by rewrite andb_false_r. }
  rewrite (respond_accepted _ _ _ _ _ Hacc).
  destruct (committed_response db user q req) as (r0 & Hin & Hans).
  rewrite Hqs in Hans. simpl in Hans.
  destruct (rows_step_stored (Response.id r0) req (answers db) question Ht)
    as (a0 & Ha0).
  destruct (write_unparsable req question a0 v Hty Hv Hfloat) as [Htext Hvalue].
  exists (finish req r0), (write req question a0).
  unfold finish in *. rewrite Hfinal in *. simpl.
  split; [done |]. split; [done |]. split; [done |].
  split; [| done].
  rewrite get_answer_for_question_find, Hans. exact Ha0.
Qed.

Lemma unparsable_scale_is_completed_witness :
  ∃ r a, r ∈ responses (respond rating_db (Some carol) 1 (post [("question_1", "abc")])).1.1
         ∧ Response.is_complete r = true
         ∧ Response.submitted_at r = utcnow (post [("question_1", "abc")])
         ∧ get_answer_for_question
             (respond rating_db (Some carol) 1 (post [("question_1", "abc")])).1.1
             r (Question.id rating)
           = Some a
         ∧ Answer.answer_text a = None
         ∧ Answer.answer_value a = None.
Proof.
  apply (unparsable_scale_is_completed rating_db (Some carol) 1
           (post [("question_1", "abc")]) survey rating "abc").
  - reflexivity.
  - reflexivity.
  - reflexivity.
  - reflexivity.
  - reflexivity.
  - reflexivity.
  - reflexivity.
  - reflexivity.
  - discriminate.
  - reflexivity.
Defined.

(** C1 as stated fails: after the submission of "abc" the answer is stored
    with both columns empty, but the response of the sample survey is
    complete, so the transition was not rejected. *)
Lemma unparsable_scale_not_rejected :
  ¬ ((∃ a, a ∈ answers (respond rating_db (Some carol) 1
                          (post [("question_1", "abc")])).1.1
           ∧ Answer.answer_text a = None ∧ Answer.answer_value a = None)
     ∧ (∀ r, r ∈ responses (respond rating_db (Some carol) 1
                              (post [("question_1", "abc")])).1.1 →
             Response.is_complete r = false)).
Proof.
  intros [_ Hall].
  specialize (Hall (Response.mk 1 1 (Some 3) 1000 true (Some "10.0.0.7") (Some ""))).
  discriminate Hall. vm_compute. left.
Qed.

(** ** Completion percentage and unusable answers *)

Lemma foldl_count_rows (db : Db) (r : Response.t) (qs : list Question.t) (n : nat) :
  foldl (λ n question,
           match get_answer_for_question db r (Question.id question) with
           | Some _ => S n
           | None => n
           end) n qs
  = (n + length (filter (λ q, is_Some (get_answer_for_question db r (Question.id q))) qs))%nat.
Proof.
  revert n. induction qs as [| q qs IH]; intros n; simpl; [lia |].
  rewrite IH, filter_cons.
  destruct (get_answer_for_question db r (Question.id q)) as [a |] eqn:Ha.
  - rewrite decide_True by by eexists. simpl. lia.
  - rewrite decide_False; [done |]. by intros [? ?].
Qed.

Lemma filter_all {A} (P : A → Prop) `{∀ x, Decision (P x)} (l : list A) :
  Forall P l → filter P l = l.
Proof.
  induction 1 as [| x l Hx _ IH]; [done |].
  rewrite filter_cons_True by done. by rewrite IH.
Qed.

Lemma round2_full (n : nat) :
  (0 < n)%nat →
  round2 (inject_Z (Z.of_nat n) / inject_Z (Z.of_nat n) * inject_Z 100)%Q = 100%Q.
Proof.
  intros Hn. rewrite (round2_comp _ 100%Q); [done |].
  field. intros E. unfold Qeq in E. simpl in E. lia.
Qed.


(** ** Analytics *)

(** C5. The selections A and B of a multiple-choice question are stored in
    one answer as the text "A, B", and the statistics of the question over
    that complete response count A once and B once. *)
Theorem multiple_choice_round_trip :
  let db := (respond choice_db (Some carol) 1
               (post [("question_3", "A"); ("question_3", "B")])).1.1 in
  answers db = [Answer.mk 1 1 3 (Some "A, B") None]
  ∧ Response.is_complete <$> responses db = [true]
  ∧ get_answer_statistics db choice
    = Ok (mkStats 1 {[ "A" := 1%nat; "B" := 1%nat ]} None).
Proof.
  vm_compute. by repeat split.
Qed.

Lemma length_omap_le {A B} (f : A → option B) (l : list A) :
  (length (omap f l) ≤ length l)%nat.
Proof.
  induction l as [| x l IH]; csimpl; [done |]. destruct (f x); simpl; lia.
Qed.

Lemma length_texts (l : list Answer.t) :
  Forall has_text l → length (omap Answer.answer_text l) = length l.
Proof.
  induction 1 as [| a l Ha _ IH]; [done |]. csimpl.
  destruct (Answer.answer_text a); [simpl; by rewrite IH | done].
Qed.

(** The texts kept from the first [n] answers open the list of all texts. *)
Lemma texts_of_take_prefix (n : nat) (l : list Answer.t) :
  omap Answer.answer_text (filter has_text (take n l))
  `prefix_of` omap Answer.answer_text (filter has_text l).
Proof.
  rewrite <- (take_drop n l) at 2. rewrite filter_app, omap_app.
  by apply prefix_app_r.
Qed.

(** When none of the first [n] answers is empty, they are the first [n]
    non-empty ones. *)
Lemma texts_of_take_full (n : nat) (l : list Answer.t) :
  Forall has_text (take n l) →
  omap Answer.answer_text (filter has_text (take n l)) = first_nonempty_texts n l.
Proof.
  intros Hall. unfold first_nonempty_texts.
  rewrite <- (take_drop n l) at 2. rewrite filter_app, omap_app.
  rewrite !filter_all by done.
  destruct (Nat.le_gt_cases n (length l)) as [Hn | Hn].
  - rewrite take_app_length'; [done |].
    rewrite length_texts by done. by rewrite length_take_le.
  - rewrite (take_ge l n), drop_ge by lia. rewrite filter_nil. csimpl.
    rewrite app_nil_r. rewrite take_ge; [done |].
    etrans; [apply length_omap_le |]. lia.
Qed.

(** C9 (amended). For an open-ended question the statistics hold the
    non-empty texts found among the first 10 answers of complete responses,
    in table order.  The sample has at most 10 entries and opens the list of
    all non-empty texts; it is the first 10 non-empty texts when none of the
    first 10 answers is empty. *)
Theorem open_ended_sample (db : Db) (question : Question.t) :
  Question.question_type question = "open_ended" →
  ∃ sample,
    get_answer_statistics db question
    = Ok (mkStats (length (complete_answers db question)) ∅ (Some sample))
    ∧ sample = omap Answer.answer_text
                    (filter has_text (take 10 (complete_answers db question)))
    ∧ (length sample ≤ 10)%nat
    ∧ sample `prefix_of`
        omap Answer.answer_text (filter has_text (complete_answers db question))
    ∧ (Forall has_text (take 10 (complete_answers db question)) →
       sample = first_nonempty_texts 10 (complete_answers db question)).
Proof.
  intros Hty. eexists. split; [| split; [reflexivity |]].
  - unfold get_answer_statistics. rewrite Hty. reflexivity.
  - split; [| split].
    + etrans; [apply length_omap_le |].
      etrans; [apply length_filter |]. rewrite length_take. lia.
    + apply texts_of_take_prefix.
    + apply texts_of_take_full.
Qed.

Lemma open_ended_sample_witness :
  ∃ sample,
    get_answer_statistics feedback_db comment
    = Ok (mkStats (length (complete_answers feedback_db comment)) ∅ (Some sample))
    ∧ sample = omap Answer.answer_text
                    (filter has_text (take 10 (complete_answers feedback_db comment)))
    ∧ (length sample ≤ 10)%nat
    ∧ sample `prefix_of`
        omap Answer.answer_text (filter has_text (complete_answers feedback_db comment))
    ∧ (Forall has_text (take 10 (complete_answers feedback_db comment)) →
       sample = first_nonempty_texts 10 (complete_answers feedback_db comment)).
Proof.
  apply (open_ended_sample feedback_db comment). reflexivity.
Defined.

(** C9 as stated fails: with eleven complete answers of which the first is
    empty, the sample has the nine texts of answers 2 to 10, and the text of
    the eleventh answer does not fill it up. *)
Lemma open_ended_sample_not_filled :
  ¬ samples_fill_to_ten feedback_db comment.
Proof.
  intros (stats & Hstats & Hsample).
  vm_compute in Hstats. injection Hstats as <-.
  vm_compute in Hsample. discriminate Hsample.
Qed.

(** ** The comma-joined storage form of multiple choices *)

Lemma split_not_nil (sep : ascii) (s : string) : split sep s ≠ [].
Proof.
  induction s as [| c s IH]; simpl; [done |].
  destruct (Ascii.eqb c sep); [done |]. by destruct (split sep s).
Qed.

Lemma string_app_cons (c : ascii) (s t : string) :
  String c s +:+ t = String c (s +:+ t).
Proof. reflexivity. Qed.

Lemma string_app_empty_r (s : string) : s +:+ "" = s.
Proof.
  induction s as [| c s IH]; [done |]. by rewrite string_app_cons, IH.
Qed.

(** A prefix without separator stays in front of the first piece. *)
Lemma split_app_no_sep (sep : ascii) (o s : string) :
  has_char sep o = false →
  split sep (o +:+ s)
  = match split sep s with
    | w :: ws => (o +:+ w) :: ws
    | [] => [o]
    end.
Proof.
  induction o as [| c o IH].
  - intros _. change ("" +:+ s) with s.
    pose proof (split_not_nil sep s). by destruct (split sep s).
  - intros [Hc Ho]%orb_false_elim. rewrite string_app_cons. simpl.
    rewrite Hc, (IH Ho).
    pose proof (split_not_nil sep s). destruct (split sep s); [done |].
    by rewrite string_app_cons.
Qed.

Lemma split_at_sep (sep : ascii) (s : string) :
  split sep (String sep s) = "" :: split sep s.
Proof. simpl. by rewrite Ascii.eqb_refl. Qed.

Lemma split_after_space (s : string) :
  split "," (String " " s)
  = match split "," s with
    | w :: ws => String " " w :: ws
    | [] => [String " " ""]
    end.
Proof. reflexivity. Qed.

Lemma strip_leading_space (s : string) : strip (String " " s) = strip s.
Proof. reflexivity. Qed.

Lemma strip_split_join (opts : list string) :
  opts ≠ [] →
  Forall (λ o, has_char "," o = false ∧ strip o = o) opts →
  strip <$> split "," (join ", " opts) = opts.
Proof.
  intros Hne Hall. induction Hall as [| o rest [Hc Hs] Hrest IH]; [done |].
  destruct rest as [| o' rest'].
  - simpl. rewrite <- (string_app_empty_r o) at 1.
    rewrite split_app_no_sep by done. simpl. by rewrite string_app_empty_r, Hs.
  - change (join ", " (o :: o' :: rest'))
      with (o +:+ String "," (String " " (join ", " (o' :: rest')))).
    rewrite split_app_no_sep by done.
    rewrite split_at_sep, string_app_empty_r, split_after_space.
    specialize (IH ltac:(done)).
    destruct (split "," (join ", " (o' :: rest'))) as [| w ws] eqn:E.
    + by apply split_not_nil in E.
    + rewrite !fmap_cons in *. rewrite strip_leading_space, Hs. by rewrite IH.
Qed.

Lemma foldl_count_up (opts : list string) (d : gmap string nat) (k : string) :
  Forall (λ o, o ≠ "") opts →
  foldl (λ d value, match value with
                    | String _ _ => count_up d value
                    | EmptyString => d
                    end) d opts !! k
  = match d !! k with
    | Some m => Some (m + length (filter (λ o, o = k) opts))%nat
    | None => if decide (k ∈ opts)
              then Some (length (filter (λ o, o = k) opts))
              else None
    end.
Proof.
  intros Hall. revert d. induction Hall as [| o rest Ho _ IH]; intros d.
  - simpl. destruct (d !! k); [f_equal; lia | done].
  - simpl. destruct o as [| c o']; [done |]. rewrite IH. unfold count_up.
    rewrite filter_cons.
    destruct (decide (String c o' = k)) as [-> | Hk].
    + rewrite lookup_insert_eq. rewrite decide_True by by left.
      destruct (d !! k); simpl; f_equal; lia.
    + rewrite lookup_insert_ne by done.
      destruct (d !! k); [done |].
      destruct (decide (k ∈ rest)) as [Hin | Hin].
      * rewrite decide_True; [done | by right].
      * rewrite decide_False; [done |].
        intros [E | E]%elem_of_cons; [by subst | done].
Qed.

(** The statistics read every stored selection back: for clean option
    values the text "o1, o2, ..." is counted as its selections, each as many
    times as it was selected. *)
Theorem multiple_choice_counts (a : Answer.t) (opts : list string) (k : string) :
  opts ≠ [] →
  Forall clean opts →
  Answer.answer_text a = Some (join ", " opts) →
  count_choices ∅ a !! k
  = if decide (k ∈ opts) then Some (length (filter (λ o, o = k) opts)) else None.
Proof.
  intros Hne Hall Htext. unfold count_choices. rewrite Htext.
  assert (∃ c s, join ", " opts = String c s) as (c & s & Hj).
  { destruct Hall as [| o rest (Ho & _ & _) _]; [done |].
    destruct o as [| c o']; [done |]. destruct rest; by eexists _, _. }
  rewrite Hj, <- Hj. rewrite strip_split_join; [| done |].
  - rewrite foldl_count_up; [by rewrite lookup_empty |].
    eapply Forall_impl; [exact Hall |]. by intros o (Ho & _ & _).
  - eapply Forall_impl; [exact Hall |]. by intros o (_ & Hc & Hs).
Qed.

Lemma multiple_choice_counts_witness :
  count_choices ∅ (Answer.mk 1 1 3 (Some "A, B") None) !! "B"
  = if decide ("B" ∈ ["A"; "B"])
    then Some (length (filter (λ o, o = "B") ["A"; "B"]))
    else None.
Proof.
  apply (multiple_choice_counts (Answer.mk 1 1 3 (Some "A, B") None) ["A"; "B"] "B").
  - discriminate.
  - repeat constructor; discriminate.
  - reflexivity.
Defined.

(** ** Further properties of the intake *)

Lemma update_answer_keys (i : Z) req question (rows : list Answer.t) :
  answer_key <$> update_answer i (write req question) rows = answer_key <$> rows.
Proof.
  unfold update_answer. rewrite <- list_fmap_compose.
  apply list_fmap_ext. intros _ a _. simpl. unfold answer_key.
  destruct (Answer.id a =? i); by rewrite ?write_response_id, ?write_question_id.
Qed.

Lemma find_answer_id_None (rid qid : Z) (rows : list Answer.t) :
  find_answer_id rid qid rows = None → (rid, qid) ∉ answer_key <$> rows.
Proof.
  unfold find_answer_id. destruct (list_find _ rows) as [[? ?] |] eqn:Hl; [done |].
  intros _ (a & [= Hr Hq] & Ha)%list_elem_of_fmap.
  apply list_find_None in Hl. rewrite Forall_forall in Hl. by apply (Hl a Ha).
Qed.

Lemma rows_step_keys_unique rid req rows question :
  NoDup (answer_key <$> rows) → NoDup (answer_key <$> rows_step rid req rows question).
Proof.
  intros Hnd. unfold rows_step, store_rows.
  destruct (truthy _); [| done].
  destruct (find_answer_id rid (Question.id question) rows) as [i |] eqn:Hf.
  - by rewrite update_answer_keys.
  - rewrite fmap_app. apply NoDup_app. split; [done |]. split.
    + intros k Hk ->%list_elem_of_singleton. revert Hk.
      unfold answer_key at 1. rewrite write_response_id, write_question_id. simpl.
      by apply find_answer_id_None.
    + apply NoDup_singleton.
Qed.

(** The view never gives a (response, question) pair a second answer row. *)
Theorem respond_answer_keys_unique (db : Db) (user : option User.t) (id : Z)
    (req : Request) :
  NoDup (answer_key <$> answers db) →
  NoDup (answer_key <$> answers (respond db user id req).1.1).
Proof.
  intros Hnd. destruct (accepted db user id req) as [q |] eqn:Hacc.
  - rewrite (respond_accepted _ _ _ _ _ Hacc).
    destruct (committed_response db user q req) as (r0 & _ & ->).
    generalize (get_questions db q). intros qs. revert Hnd.
    generalize (answers db).
    induction qs as [| question qs IH]; intros rows Hnd; simpl; [done |].
    by apply IH, rows_step_keys_unique.
  - by rewrite (respond_rejected _ _ _ _ Hacc).
Qed.

Lemma respond_answer_keys_unique_witness :
  NoDup (answer_key <$> answers (respond rating_db (Some carol) 1
                                   (post [("question_1", "4")])).1.1).
Proof.
  apply (respond_answer_keys_unique rating_db (Some carol) 1 (post [("question_1", "4")])).
  vm_compute. constructor.
Defined.

(** An accepted request of an anonymous visitor always inserts a response:
    no earlier draft is looked up. *)
Theorem anonymous_always_inserts (db : Db) (id : Z) (req : Request) (q : Questionnaire.t) :
  accepted db None id req = Some q →
  responses (respond db None id req).1.1
  = responses db ++ [finish req (new_response db q None req)].
Proof.
  intros Hacc. rewrite (respond_accepted _ _ _ _ _ Hacc).
  rewrite (committed_new db None q req eq_refl). cbn [responses].
  apply update_new_response.
Qed.

Lemma anonymous_always_inserts_witness :
  responses (respond open_db None 1 (post [("question_1", "4"); ("save_draft", "1")])).1.1
  = responses open_db
    ++ [finish (post [("question_1", "4"); ("save_draft", "1")])
               (new_response open_db open_survey None
                             (post [("question_1", "4"); ("save_draft", "1")]))].
Proof.
  apply (anonymous_always_inserts open_db 1
           (post [("question_1", "4"); ("save_draft", "1")]) open_survey).
  reflexivity.
Defined.

(** ** Completed responses are out of reach of the intake *)

Lemma NoDup_fmap_eq {A B} (f : A → B) (l : list A) (x y : A) :
  NoDup (f <$> l) → x ∈ l → y ∈ l → f x = f y → x = y.
Proof.
  induction l as [| a l IH]; [by intros _ ?%elem_of_nil |].
  rewrite fmap_cons, NoDup_cons. intros [Ha Hnd] Hx Hy E.
  apply elem_of_cons in Hx as [-> | Hx]; apply elem_of_cons in Hy as [-> | Hy].
  - done.
  - exfalso. apply Ha. rewrite E. by apply list_elem_of_fmap_2.
  - exfalso. apply Ha. rewrite <- E. by apply list_elem_of_fmap_2.
  - by apply IH.
Qed.

Lemma filter_fmap_fixed {A} (P : A → Prop) `{∀ x, Decision (P x)} (g : A → A) (l : list A) :
  (∀ x, x ∈ l → (P (g x) ↔ P x) ∧ (P x → g x = x)) →
  filter P (g <$> l) = filter P l.
Proof.
  induction l as [| a l IH]; intros Hg; [done |].
  rewrite fmap_cons, !filter_cons.
  destruct (Hg a) as [Hiff Hfix]; [by left |].
  rewrite IH by (intros x Hx; apply Hg; by right).
  destruct (decide (P a)) as [Ha | Ha].
  - rewrite decide_True by by apply Hiff. by rewrite Hfix.
  - rewrite decide_False; [done |]. by rewrite Hiff.
Qed.

Lemma elem_of_update_response_miss (i : Z) (f : Response.t → Response.t)
    (l : list Response.t) (x : Response.t) :
  x ∈ l → Response.id x ≠ i → x ∈ update_response i f l.
Proof.
  intros Hx Hne. unfold update_response. apply list_elem_of_fmap.
  exists x. split; [| done]. by destruct (Z.eqb_spec (Response.id x) i).
Qed.

Lemma find_draft_is_draft db q u d :
  find_draft db q u = Some d → d ∈ responses db ∧ Response.is_complete d = false.
Proof.
  unfold find_draft. destruct (list_find _ _) as [[i x] |] eqn:Hl; [| done].
  intros [= <-]. apply list_find_Some in Hl as (Hi & (_ & _ & Hc) & _).
  split; [by eapply list_elem_of_lookup_2 | done].
Qed.

(** A turn of the loop for one response leaves the answers of every other
    response as they are, and keeps answer keys distinct. *)
Lemma rows_step_other rid req rows question (k : Z) :
  NoDup (Answer.id <$> rows) → rid ≠ k →
  filter (λ a, Answer.response_id a = k) (rows_step rid req rows question)
  = filter (λ a, Answer.response_id a = k) rows
  ∧ NoDup (Answer.id <$> rows_step rid req rows question).
Proof.
  intros Hnd Hne. unfold rows_step, store_rows.
  destruct (truthy _); [| done].
  destruct (find_answer_id rid (Question.id question) rows) as [i |] eqn:Hf.
  - split; [| by rewrite update_answer_ids].
    destruct (find_answer_id_elem _ _ _ _ Hf) as (a & Ha & Hid & Hr & _).
    unfold update_answer. apply filter_fmap_fixed. intros x Hx.
    destruct (Z.eqb_spec (Answer.id x) i) as [E | E].
    + assert (x = a) as -> by (apply (NoDup_fmap_eq Answer.id rows); congruence).
      rewrite write_response_id. split; [done |]. congruence.
    + done.
  - split.
    + rewrite filter_app, filter_cons_False, filter_nil, app_nil_r; [done |].
      rewrite write_response_id. simpl. congruence.
    + rewrite fmap_app, fmap_cons, write_id. simpl. apply NoDup_app.
      split; [done |]. split; [| apply NoDup_singleton].
      intros x Hx ->%list_elem_of_singleton.
      apply next_id_fresh in Hx. lia.
Qed.

Lemma foldl_rows_other rid req qs rows (k : Z) :
  NoDup (Answer.id <$> rows) → rid ≠ k →
  filter (λ a, Answer.response_id a = k) (foldl (rows_step rid req) rows qs)
  = filter (λ a, Answer.response_id a = k) rows.
Proof.
  revert rows. induction qs as [| q qs IH]; intros rows Hnd Hne; [done |]. simpl.
  destruct (rows_step_other rid req rows q k Hnd Hne) as [Hsame Hnd'].
  by rewrite IH, Hsame.
Qed.

(** Complete is terminal: whatever the request, a completed response stays
    in the table as it is, and so do its answers. *)
Theorem respond_leaves_completed_alone
    (db : Db) (user : option User.t) (id : Z) (req : Request) (r : Response.t) :
  NoDup (Response.id <$> responses db) →
  NoDup (Answer.id <$> answers db) →
  r ∈ responses db →
  Response.is_complete r = true →
  r ∈ responses (respond db user id req).1.1
  ∧ answers_of (respond db user id req).1.1 (Response.id r) = answers_of db (Response.id r).
Proof.
  intros Hnr Hna Hr Hc.
  destruct (accepted db user id req) as [q |] eqn:Hacc.
  2:{ by rewrite (respond_rejected _ _ _ _ Hacc). }
  rewrite (respond_accepted _ _ _ _ _ Hacc). unfold answers_of.
  destruct (user ≫= find_draft db q) as [d |] eqn:Hfd.
  - destruct user as [u |]; [| done]. simpl in Hfd.
    destruct (find_draft_is_draft _ _ _ _ Hfd) as [Hd Hdc].
    assert (Response.id d ≠ Response.id r) as Hne.
    { intros E. assert (d = r) by (apply (NoDup_fmap_eq Response.id (responses db)); done).
      congruence. }
    rewrite (committed_found db u q req d Hfd). cbn [responses answers]. split.
    + apply elem_of_update_response_miss; [done | congruence].
    + by apply foldl_rows_other.
  - rewrite (committed_new db user q req Hfd). cbn [responses answers].
    assert (Response.id (new_response db q user req) ≠ Response.id r) as Hne.
    { unfold new_response. simpl.
      assert (Response.id r < next_id (Response.id <$> responses db))
        by by apply next_id_fresh, list_elem_of_fmap_2.
      lia. }
    split.
    + apply elem_of_update_response_miss; [| congruence].
      apply elem_of_app. by left.
    + by apply foldl_rows_other.
Qed.

Lemma respond_leaves_completed_alone_witness :
  rated_response ∈ responses (respond rated_db (Some carol) 1 (post [("question_1", "2")])).1.1
  ∧ answers_of (respond rated_db (Some carol) 1 (post [("question_1", "2")])).1.1
               (Response.id rated_response)
    = answers_of rated_db (Response.id rated_response).
Proof.
  apply (respond_leaves_completed_alone rated_db (Some carol) 1
           (post [("question_1", "2")]) rated_response).
  - vm_compute. apply NoDup_singleton.
  - vm_compute. apply NoDup_singleton.
  - vm_compute. left.
  - reflexivity.
Defined.

(** ** Trimming *)

Lemma string_app_assoc (s t u : string) : (s +:+ t) +:+ u = s +:+ (t +:+ u).
Proof.
  induction s as [| c s IH]; [done |]. by rewrite !string_app_cons, IH.
Qed.

Lemma rev_app_app (s u : string) : String.rev_app s u = String.rev_app s "" +:+ u.
Proof.
  revert u. induction s as [| c s IH]; intros u; [done |]. simpl.
  rewrite (IH (String c u)), (IH (String c "")).
  by rewrite string_app_assoc.
Qed.

Lemma string_rev_cons (c : ascii) (s : string) :
  String.rev (String c s) = String.rev s +:+ String c "".
Proof. unfold String.rev. simpl. apply rev_app_app. Qed.

Lemma string_rev_snoc (c : ascii) (s : string) :
  String.rev (s +:+ String c "") = String c (String.rev s).
Proof.
  induction s as [| a s IH]; [done |].
  rewrite string_app_cons, !string_rev_cons, IH. by rewrite string_app_cons.
Qed.

Lemma string_rev_involutive (s : string) : String.rev (String.rev s) = s.
Proof.
  induction s as [| c s IH]; [done |].
  by rewrite string_rev_cons, string_rev_snoc, IH.
Qed.

Lemma lstrip_idempotent (s : string) : lstrip (lstrip s) = lstrip s.
Proof.
  induction s as [| c s IH]; [done |]. simpl.
  destruct (isspace c) eqn:E; [done |]. simpl. by rewrite E.
Qed.

Lemma lstrip_snoc (c : ascii) (t : string) :
  isspace c = false → ∃ w, lstrip (t +:+ String c "") = w +:+ String c "".
Proof.
  intros Hc. induction t as [| a t IH].
  - exists "". simpl. by rewrite Hc.
  - rewrite string_app_cons. simpl. destruct (isspace a); [done |].
    exists (String a t). by rewrite string_app_cons.
Qed.

Lemma rstrip_idempotent (s : string) : rstrip (rstrip s) = rstrip s.
Proof. unfold rstrip. by rewrite string_rev_involutive, lstrip_idempotent. Qed.

(** Trimming on the right leaves a trimmed left end alone. *)
Lemma lstrip_rstrip (s : string) : lstrip (rstrip (lstrip s)) = rstrip (lstrip s).
Proof.
  assert (lstrip s = "" ∨ ∃ c t, lstrip s = String c t ∧ isspace c = false) as Hs.
  { induction s as [| c s IH]; [by left |]. simpl.
    destruct (isspace c) eqn:E; [done |]. right. by exists c, s. }
  destruct Hs as [-> | (c & t & -> & Hc)]; [done |].
  unfold rstrip. rewrite string_rev_cons.
  destruct (lstrip_snoc c (String.rev t) Hc) as [w ->].
  rewrite string_rev_snoc. simpl. by rewrite Hc.
Qed.

Lemma strip_idempotent (s : string) : strip (strip s) = strip s.
Proof. unfold strip. by rewrite lstrip_rstrip, rstrip_idempotent. Qed.

(** ** The question API *)

Lemma normalize_options_clean (options : list string) :
  Forall (λ o, o ≠ "" ∧ strip o = o) (normalize_options options).
Proof.
  unfold normalize_options. apply Forall_forall. intros o Ho.
  apply list_elem_of_filter in Ho as [Hne Ho].
  apply list_elem_of_fmap in Ho as (o' & -> & _).
  split; [done | apply strip_idempotent].
Qed.

Lemma insert_by_order_last (a x : Question.t) (l : list Question.t) :
  Question.order_index a ≤ Question.order_index x →
  insert_by_order a (l ++ [x]) = insert_by_order a l ++ [x].
Proof.
  intros Hle. induction l as [| y l IH]; simpl.
  - by rewrite (proj2 (Z.leb_le _ _) Hle).
  - destruct (Question.order_index a <=? Question.order_index y); [done |].
    by rewrite IH.
Qed.

(** A row whose index is not below any other sorts last. *)
Lemma order_by_index_snoc (x : Question.t) (l : list Question.t) :
  (∀ a, a ∈ l → Question.order_index a ≤ Question.order_index x) →
  order_by_index (l ++ [x]) = order_by_index l ++ [x].
Proof.
  unfold order_by_index. induction l as [| a l IH]; intros Hle; [done |].
  simpl. rewrite IH by (intros b Hb; apply Hle; by right).
  apply insert_by_order_last, Hle. by left.
Qed.

Lemma max_order_index_bound (db : Db) (qid : Z) (x : Question.t) :
  x ∈ questions_of db qid →
  Question.order_index x ≤ or_zero (max_order_index db qid).
Proof.
  unfold max_order_index. induction (questions_of db qid) as [| y l IH].
  - by intros ?%elem_of_nil.
  - intros [-> | Hx]%elem_of_cons; simpl.
    + destruct (foldr _ None l) as [m |]; simpl.
      * destruct (Z.eqb_spec (Z.max (Question.order_index y) m) 0); lia.
      * destruct (Z.eqb_spec (Question.order_index y) 0); lia.
    + specialize (IH Hx). destruct (foldr _ None l) as [m |] eqn:E; simpl in *.
      * destruct (Z.eqb_spec m 0), (Z.eqb_spec (Z.max (Question.order_index y) m) 0); lia.
      * destruct l as [| z l]; [by apply elem_of_nil in Hx |].
        simpl in E. by destruct (foldr _ None l).
Qed.

(** A question created through the API gets a fresh key, sorts after the
    questions the questionnaire already has, carries only trimmed non-empty
    options, and leaves the questions of other questionnaires alone. *)
Theorem create_question_appends
    (db : Db) (u : User.t) (data : QuestionData) (q : Questionnaire.t) :
  data_questionnaire_id data ≫= get_questionnaire db = Some q →
  can_edit_questionnaire u q = true →
  ∃ question,
    create_question db u data
    = (with_questions db (questions db ++ [question]), ApiSuccess)
    ∧ get_questions (create_question db u data).1 q = get_questions db q ++ [question]
    ∧ Question.questionnaire_id question = Questionnaire.id q
    ∧ (∀ x, x ∈ questions db → Question.id x < Question.id question)
    ∧ Forall (λ o, o ≠ "" ∧ strip o = o) (Question.options question)
    ∧ (∀ other, other ≠ Questionnaire.id q →
         questions_of (create_question db u data).1 other = questions_of db other).
Proof.
  intros Hq Hedit. unfold create_question. rewrite Hq, Hedit. simpl.
  eexists. split; [reflexivity |]. simpl.
  split; [| split; [done |]; split; [| split]].
  - unfold get_questions, questions_of. simpl.
    rewrite filter_app, filter_cons_True by done. rewrite filter_nil.
    apply order_by_index_snoc. intros a Ha. simpl.
    pose proof (max_order_index_bound db (Questionnaire.id q) a Ha). lia.
  - intros x Hx. apply next_id_fresh. by apply list_elem_of_fmap_2.
  - unfold requested_options. destruct (data_options data) as [[| o rest] |]; simpl;
      try by apply Forall_nil.
    destruct (is_choice_type _); simpl; [apply normalize_options_clean | by apply Forall_nil].
  - intros other Hother. unfold questions_of. simpl.
    rewrite filter_app, filter_cons_False, filter_nil, app_nil_r; [done |].
    simpl. congruence.
Qed.

Lemma create_question_appends_witness :
  ∃ question,
    create_question rating_db dave yes_no
    = (with_questions rating_db (questions rating_db ++ [question]), ApiSuccess)
    ∧ get_questions (create_question rating_db dave yes_no).1 survey
      = get_questions rating_db survey ++ [question]
    ∧ Question.questionnaire_id question = Questionnaire.id survey
    ∧ (∀ x, x ∈ questions rating_db → Question.id x < Question.id question)
    ∧ Forall (λ o, o ≠ "" ∧ strip o = o) (Question.options question)
    ∧ (∀ other, other ≠ Questionnaire.id survey →
         questions_of (create_question rating_db dave yes_no).1 other
         = questions_of rating_db other).
Proof.
  apply (create_question_appends rating_db dave yes_no survey).
  - reflexivity.
  - reflexivity.
Defined.

Lemma insert_by_order_fmap (g : Question.t → Question.t) (a : Question.t)
    (l : list Question.t) :
  (∀ x, Question.order_index (g x) = Question.order_index x) →
  insert_by_order (g a) (g <$> l) = g <$> insert_by_order a l.
Proof.
  intros Hg. induction l as [| y l IH]; [done |]. simpl.
  rewrite !Hg. destruct (_ <=? _); [done |]. rewrite fmap_cons. by rewrite <- IH.
Qed.

(** Changing rows without changing their index does not change the order. *)
Lemma order_by_index_fmap (g : Question.t → Question.t) (l : list Question.t) :
  (∀ x, Question.order_index (g x) = Question.order_index x) →
  order_by_index (g <$> l) = g <$> order_by_index l.
Proof.
  intros Hg. unfold order_by_index. induction l as [| a l IH]; [done |].
  rewrite fmap_cons. cbn [foldr]. rewrite IH. by apply insert_by_order_fmap.
Qed.

Lemma filter_fmap_same {A} (P : A → Prop) `{∀ x, Decision (P x)} (g : A → A) (l : list A) :
  (∀ x, P (g x) ↔ P x) → filter P (g <$> l) = g <$> filter P l.
Proof.
  intros Hg. induction l as [| a l IH]; [done |].
  rewrite fmap_cons, !filter_cons, IH.
  destruct (decide (P a)) as [Ha | Ha].
  - by rewrite decide_True by by apply Hg.
  - rewrite decide_False; [done |]. by rewrite Hg.
Qed.

Lemma get_questions_update_rows (db : Db) (i : Z) (g : Question.t → Question.t)
    (q : Questionnaire.t) :
  (∀ x, Question.order_index (g x) = Question.order_index x) →
  (∀ x, Question.questionnaire_id (g x) = Question.questionnaire_id x) →
  get_questions (with_questions db (update_question_rows i g (questions db))) q
  = (λ x, if Question.id x =? i then g x else x) <$> get_questions db q.
Proof.
  intros Ho Hq. unfold get_questions, questions_of, update_question_rows. simpl.
  rewrite filter_fmap_same.
  - apply order_by_index_fmap. intros x. by destruct (Question.id x =? i).
  - intros x. destruct (Question.id x =? i); [by rewrite Hq | done].
Qed.

Lemma get_question_id (db : Db) (id : Z) (question : Question.t) :
  get_question db id = Some question → Question.id question = id ∧ question ∈ questions db.
Proof.
  unfold get_question. destruct (list_find _ _) as [[i x] |] eqn:Hl; [| done].
  intros [= <-]. apply list_find_Some in Hl as (Hi & Hid & _).
  split; [done | by eapply list_elem_of_lookup_2].
Qed.

(** Updating a question never touches responses or answers, not even when
    its type changes, and keeps the order of the questions; and unless the
    request carries options they are erased. *)
Theorem update_question_frame (db : Db) (u : User.t) (question_id : Z) (data : QuestionData) :
  answers (update_question db u question_id data).1 = answers db
  ∧ responses (update_question db u question_id data).1 = responses db
  ∧ (∀ q, Question.id <$> get_questions (update_question db u question_id data).1 q
          = Question.id <$> get_questions db q)
  ∧ ((update_question db u question_id data).2 = ApiSuccess →
     data_options data = None →
     ∀ x, x ∈ questions (update_question db u question_id data).1 →
          Question.id x = question_id → Question.options x = []).
Proof.
  unfold update_question.
  destruct (get_question db question_id) as [question |] eqn:Hg; [| done].
  destruct (get_question_id _ _ _ Hg) as [Hid _].
  destruct (get_questionnaire db _) as [qn |]; [| done].
  destruct (negb (can_edit_questionnaire u qn)); [done |]. simpl.
  split; [done |]. split; [done |]. split.
  - intros q. rewrite get_questions_update_rows by done.
    rewrite <- list_fmap_compose. apply list_fmap_ext. intros _ x _. simpl.
    by destruct (Question.id x =? Question.id question).
  - intros _ Hnone x Hx Hxid. unfold update_question_rows in Hx.
    apply list_elem_of_fmap in Hx as (x0 & -> & _).
    destruct (Z.eqb_spec (Question.id x0) (Question.id question)) as [E | E].
    + simpl. unfold requested_options. by rewrite Hnone.
    + congruence.
Qed.

(** ** Cascades *)

Lemma get_questionnaire_id (db : Db) (id : Z) (q : Questionnaire.t) :
  get_questionnaire db id = Some q → Questionnaire.id q = id ∧ q ∈ questionnaires db.
Proof.
  unfold get_questionnaire. destruct (list_find _ _) as [[i x] |] eqn:Hl; [| done].
  intros [= <-]. apply list_find_Some in Hl as (Hi & Hid & _).
  split; [done | by eapply list_elem_of_lookup_2].
Qed.

Lemma get_response_id (db : Db) (id : Z) (r : Response.t) :
  get_response db id = Some r → Response.id r = id ∧ r ∈ responses db.
Proof.
  unfold get_response. destruct (list_find _ _) as [[i x] |] eqn:Hl; [| done].
  intros [= <-]. apply list_find_Some in Hl as (Hi & Hid & _).
  split; [done | by eapply list_elem_of_lookup_2].
Qed.

Lemma delete_cascade_integrity (db : Db) (qn : Questionnaire.t) :
  referential_integrity db → referential_integrity (delete_cascade db qn).
Proof.
  intros (Hq & Hr & Ha). unfold delete_cascade. repeat split; simpl.
  - intros q [Hne Hin]%list_elem_of_filter.
    destruct (Hq q Hin) as (qn' & Hin' & Hid). exists qn'. split; [| done].
    apply list_elem_of_filter. split; [congruence | done].
  - intros r [Hne Hin]%list_elem_of_filter.
    destruct (Hr r Hin) as (qn' & Hin' & Hid). exists qn'. split; [| done].
    apply list_elem_of_filter. split; [congruence | done].
  - apply list_elem_of_filter in H as [[Hnq _] Hin].
    destruct (Ha a Hin) as [(q & Hqin & Hqid) _]. exists q. split; [| done].
    apply list_elem_of_filter. split; [| done]. intros E. apply Hnq.
    rewrite <- Hqid. apply list_elem_of_fmap_2. unfold questions_of.
    by apply list_elem_of_filter.
  - apply list_elem_of_filter in H as [[_ Hnr] Hin].
    destruct (Ha a Hin) as [_ (r & Hrin & Hrid)]. exists r. split; [| done].
    apply list_elem_of_filter. split; [| done]. intros E. apply Hnr.
    rewrite <- Hrid. apply list_elem_of_fmap_2. unfold responses_of.
    by apply list_elem_of_filter.
Qed.

(** Deleting a questionnaire removes everything that belongs to it and
    nothing else dangles afterwards. *)
Theorem delete_keeps_integrity (db : Db) (u : User.t) (id : Z) :
  referential_integrity db →
  referential_integrity (delete db u id).1
  ∧ (∀ q, get_questionnaire db id = Some q → can_edit_questionnaire u q = true →
          (∀ x, x ∈ questionnaires (delete db u id).1 → Questionnaire.id x ≠ id)
          ∧ questions_of (delete db u id).1 id = []
          ∧ (∀ r, r ∈ responses (delete db u id).1 → Response.questionnaire_id r ≠ id)
          ∧ (∀ x, x ∈ questionnaires db → Questionnaire.id x ≠ id →
                  x ∈ questionnaires (delete db u id).1)
          ∧ (∀ other, other ≠ id →
                      questions_of (delete db u id).1 other = questions_of db other)).
Proof.
  intros Hint. unfold delete. split.
  - destruct (get_questionnaire db id) as [q |]; [| done].
    destruct (negb (can_edit_questionnaire u q)); [done |].
    by apply delete_cascade_integrity.
  - intros q Hq Hedit. rewrite Hq, Hedit. simpl.
    destruct (get_questionnaire_id _ _ _ Hq) as [<- _].
    split; [| split; [| split; [| split]]].
    + by intros x [Hne _]%list_elem_of_filter.
    + unfold questions_of. simpl. rewrite list_filter_filter.
      induction (questions db) as [| x l IH]; [done |].
      rewrite filter_cons. destruct (decide _) as [[? ?] | ?]; [done | exact IH].
    + by intros r [Hne _]%list_elem_of_filter.
    + intros x Hx Hne. by apply list_elem_of_filter.
    + intros other Hother. unfold questions_of. simpl. rewrite list_filter_filter.
      apply list_filter_iff. intros x. split; [by intros [? ?] |].
      intros E. split; [done | congruence].
Qed.

Lemma rated_db_integrity : referential_integrity rated_db.
Proof.
  split; [| split]; simpl; intros x ->%list_elem_of_singleton; try split;
    eexists; (split; [by left | reflexivity]).
Qed.

Lemma delete_keeps_integrity_witness :
  referential_integrity (delete rated_db dave 1).1
  ∧ (∀ q, get_questionnaire rated_db 1 = Some q → can_edit_questionnaire dave q = true →
          (∀ x, x ∈ questionnaires (delete rated_db dave 1).1 → Questionnaire.id x ≠ 1)
          ∧ questions_of (delete rated_db dave 1).1 1 = []
          ∧ (∀ r, r ∈ responses (delete rated_db dave 1).1 →
                  Response.questionnaire_id r ≠ 1)
          ∧ (∀ x, x ∈ questionnaires rated_db → Questionnaire.id x ≠ 1 →
                  x ∈ questionnaires (delete rated_db dave 1).1)
          ∧ (∀ other, other ≠ 1 →
                      questions_of (delete rated_db dave 1).1 other
                      = questions_of rated_db other)).
Proof.
  apply (delete_keeps_integrity rated_db dave 1). exact rated_db_integrity.
Defined.

(** Deleting a question takes its answers with it and no others, and leaves
    no answer without its question. *)
Theorem delete_question_keeps_integrity (db : Db) (u : User.t) (question_id : Z) :
  referential_integrity db →
  referential_integrity (delete_question db u question_id).1
  ∧ ((delete_question db u question_id).2 = ApiSuccess →
     (∀ x, x ∈ questions (delete_question db u question_id).1 →
           Question.id x ≠ question_id)
     ∧ answers (delete_question db u question_id).1
       = filter (λ a, Answer.question_id a ≠ question_id) (answers db)
     ∧ responses (delete_question db u question_id).1 = responses db).
Proof.
  intros (Hq & Hr & Ha). unfold delete_question.
  destruct (get_question db question_id) as [question |] eqn:Hg; [| done].
  destruct (get_question_id _ _ _ Hg) as [<- _].
  destruct (get_questionnaire db _) as [qn |]; [| done].
  destruct (negb (can_edit_questionnaire u qn)); [done |]. simpl.
  split; [| intros _; split; [| done]].
  - repeat split; simpl.
    + intros q [_ Hin]%list_elem_of_filter. by apply Hq.
    + done.
    + apply list_elem_of_filter in H as [Hne Hin].
      destruct (Ha a Hin) as [(q & Hqin & Hqid) _]. exists q. split; [| done].
      apply list_elem_of_filter. split; [congruence | done].
    + apply list_elem_of_filter in H as [_ Hin]. by apply Ha.
  - by intros x [Hne _]%list_elem_of_filter.
Qed.

Lemma delete_question_keeps_integrity_witness :
  referential_integrity (delete_question rated_db dave 1).1
  ∧ ((delete_question rated_db dave 1).2 = ApiSuccess →
     (∀ x, x ∈ questions (delete_question rated_db dave 1).1 → Question.id x ≠ 1)
     ∧ answers (delete_question rated_db dave 1).1
       = filter (λ a, Answer.question_id a ≠ 1) (answers rated_db)
     ∧ responses (delete_question rated_db dave 1).1 = responses rated_db).
Proof.
  apply (delete_question_keeps_integrity rated_db dave 1). exact rated_db_integrity.
Defined.

(** Deleting a response takes its answers with it, leaves no answer without
    its response, and the deleted response no longer counts as the user
    having responded. *)
Theorem delete_response_effects (db : Db) (u : User.t) (response_id : Z) :
  referential_integrity db →
  referential_integrity (delete_response db u response_id).1
  ∧ ((delete_response db u response_id).2 = ApiSuccess →
     (∀ x, x ∈ responses (delete_response db u response_id).1 →
           Response.id x ≠ response_id)
     ∧ answers (delete_response db u response_id).1
       = filter (λ a, Answer.response_id a ≠ response_id) (answers db)
     ∧ (∀ q uid, uid ≠ 0 →
          user_has_responded (delete_response db u response_id).1 q uid = true
          ↔ ∃ r, r ∈ responses db
                 ∧ Response.id r ≠ response_id
                 ∧ Response.questionnaire_id r = Questionnaire.id q
                 ∧ Response.user_id r = Some uid
                 ∧ Response.is_complete r = true)).
Proof.
  intros (Hq & Hr & Ha). unfold delete_response.
  destruct (get_response db response_id) as [response |] eqn:Hg; [| done].
  destruct (get_response_id _ _ _ Hg) as [<- _].
  destruct (get_questionnaire db _) as [qn |]; [| done].
  destruct (negb (can_edit_questionnaire u qn)); [done |]. simpl.
  split; [| intros _; split; [| split; [done |]]].
  - split; [done |]. split; simpl.
    + intros r [_ Hin]%list_elem_of_filter. by apply Hr.
    + intros a [Hne Hin]%list_elem_of_filter. split; [by apply Ha |].
      destruct (Ha a Hin) as [_ (r & Hrin & Hrid)]. exists r. split; [| done].
      apply list_elem_of_filter. split; [congruence | done].
  - by intros x [Hne _]%list_elem_of_filter.
  - intros q uid Huid. rewrite user_has_responded_true by done. simpl. split.
    + intros (r & [Hne Hin]%list_elem_of_filter & H1 & H2 & H3). by exists r.
    + intros (r & Hin & Hne & H1 & H2 & H3). exists r. split; [| done].
      by apply list_elem_of_filter.
Qed.

Lemma delete_response_effects_witness :
  referential_integrity (delete_response rated_db dave 1).1
  ∧ ((delete_response rated_db dave 1).2 = ApiSuccess →
     (∀ x, x ∈ responses (delete_response rated_db dave 1).1 → Response.id x ≠ 1)
     ∧ answers (delete_response rated_db dave 1).1
       = filter (λ a, Answer.response_id a ≠ 1) (answers rated_db)
     ∧ (∀ q uid, uid ≠ 0 →
          user_has_responded (delete_response rated_db dave 1).1 q uid = true
          ↔ ∃ r, r ∈ responses rated_db
                 ∧ Response.id r ≠ 1
                 ∧ Response.questionnaire_id r = Questionnaire.id q
                 ∧ Response.user_id r = Some uid
                 ∧ Response.is_complete r = true)).
Proof.
  apply (delete_response_effects rated_db dave 1). exact rated_db_integrity.
Defined.

(** ** The order of questions *)

Lemma insert_by_order_perm (a : Question.t) (l : list Question.t) :
  insert_by_order a l ≡ₚ a :: l.
Proof.
  induction l as [| y l IH]; [done |]. simpl.
  destruct (_ <=? _); [done |]. rewrite IH. apply Permutation_swap.
Qed.

Lemma order_by_index_perm (l : list Question.t) : order_by_index l ≡ₚ l.
Proof.
  unfold order_by_index. induction l as [| a l IH]; [done |].
  simpl. by rewrite insert_by_order_perm, IH.
Qed.

Lemma elem_of_get_questions (db : Db) (q : Questionnaire.t) (x : Question.t) :
  x ∈ get_questions db q
  ↔ x ∈ questions db ∧ Question.questionnaire_id x = Questionnaire.id q.
Proof.
  unfold get_questions, questions_of. rewrite order_by_index_perm.
  rewrite list_elem_of_filter. tauto.
Qed.

(** ** The intake keeps the tables consistent *)

Lemma rows_step_elem rid req rows q (a' : Answer.t) :
  a' ∈ rows_step rid req rows q →
  (∃ a, a ∈ rows ∧ answer_key a' = answer_key a)
  ∨ (Answer.response_id a' = rid ∧ Answer.question_id a' = Question.id q).
Proof.
  unfold rows_step, store_rows. destruct (truthy _); [| by left; exists a'].
  destruct (find_answer_id rid (Question.id q) rows) as [i |].
  - unfold update_answer. intros (a & -> & Ha)%list_elem_of_fmap. left. exists a.
    split; [done |]. unfold answer_key.
    destruct (Answer.id a =? i); by rewrite ?write_response_id, ?write_question_id.
  - intros [Ha | ->%list_elem_of_singleton]%elem_of_app; [by left; exists a' |].
    right. by rewrite write_response_id, write_question_id.
Qed.

Lemma foldl_rows_elem rid req qs rows (a' : Answer.t) :
  a' ∈ foldl (rows_step rid req) rows qs →
  (∃ a, a ∈ rows ∧ answer_key a' = answer_key a)
  ∨ (Answer.response_id a' = rid
     ∧ ∃ q, q ∈ qs ∧ Answer.question_id a' = Question.id q).
Proof.
  revert rows. induction qs as [| q qs IH]; intros rows; [by left; exists a' |].
  simpl. intros [(a & Ha & Hk) | (Hr & q' & Hq' & Hid)]%IH.
  - apply rows_step_elem in Ha as [(a0 & Ha0 & Hk0) | [Hr Hid]].
    + left. exists a0. split; [done | congruence].
    + right. injection Hk as Hk1 Hk2. split; [congruence |].
      exists q. split; [by left | congruence].
  - right. split; [done |]. exists q'. split; [by right | done].
Qed.

Lemma finish_keys req r :
  Response.id (finish req r) = Response.id r
  ∧ Response.questionnaire_id (finish req r) = Response.questionnaire_id r.
Proof. unfold finish. by destruct (form_has _ _). Qed.

(** Whatever the request, the intake leaves no question, response or answer
    dangling. *)
Theorem respond_keeps_integrity (db : Db) (user : option User.t) (id : Z) (req : Request) :
  referential_integrity db → referential_integrity (respond db user id req).1.1.
Proof.
  intros Hint. destruct (accepted db user id req) as [q |] eqn:Hacc.
  2:{ by rewrite (respond_rejected _ _ _ _ Hacc). }
  rewrite (respond_accepted _ _ _ _ _ Hacc).
  destruct (accepted_inv _ _ _ _ _ Hacc) as (Hq & _).
  destruct (get_questionnaire_id _ _ _ Hq) as [_ Hqin].
  destruct Hint as (HQ & HR & HA).
  destruct (committed_response db user q req) as (r0 & Hr0 & Hans).
  assert (users (committed db user q req) = users db
          ∧ questionnaires (committed db user q req) = questionnaires db
          ∧ questions (committed db user q req) = questions db) as (_ & Hqns & Hqs).
  { unfold committed. by destruct (get_or_create_response _ _ _ _). }
  assert (∀ r', r' ∈ responses (committed db user q req) →
                ∃ r, (r ∈ responses db ∨ r = new_response db q user req)
                     ∧ Response.id r' = Response.id r
                     ∧ Response.questionnaire_id r' = Response.questionnaire_id r) as Hold.
  { intros r'. destruct (user ≫= find_draft db q) as [d |] eqn:Hfd.
    - destruct user as [u |]; [| done]. simpl in Hfd.
      rewrite (committed_found db u q req d Hfd). cbn [responses].
      intros [H | (x & Hx & ->)]%elem_of_update_response.
      + exists r'. auto.
      + exists x. destruct (finish_keys req x) as [-> ->]. auto.
    - rewrite (committed_new db user q req Hfd). cbn [responses].
      rewrite update_new_response.
      intros [H | ->%list_elem_of_singleton]%elem_of_app.
      + exists r'. auto.
      + exists (new_response db q user req).
        destruct (finish_keys req (new_response db q user req)) as [-> ->]. auto. }
  assert (∀ r, r ∈ responses db →
               ∃ r', r' ∈ responses (committed db user q req)
                     ∧ Response.id r' = Response.id r) as Hnew.
  { intros r Hr. destruct (user ≫= find_draft db q) as [d |] eqn:Hfd.
    - destruct user as [u |]; [| done]. simpl in Hfd.
      rewrite (committed_found db u q req d Hfd). cbn [responses].
      unfold update_response. eexists. split; [by apply list_elem_of_fmap_2 |].
      destruct (Response.id r =? Response.id d); [apply finish_keys | done].
    - rewrite (committed_new db user q req Hfd). cbn [responses].
      rewrite update_new_response. exists r. split; [| done].
      apply elem_of_app. by left. }
  split; [| split].
  - rewrite Hqns, Hqs. exact HQ.
  - rewrite Hqns. intros r' (r & [Hr | ->] & _ & ->)%Hold; [by apply HR |].
    by exists q.
  - rewrite Hqs, Hans. intros a' [(a & Ha & Hk) | (Hrid & x & Hx & Hxid)]%foldl_rows_elem.
    + injection Hk as -> ->. destruct (HA a Ha) as [Hqa (r & Hr & Hrid)].
      split; [done |]. destruct (Hnew r Hr) as (r' & Hr' & Hid').
      exists r'. split; [done | congruence].
    + split.
      * exists x. apply elem_of_get_questions in Hx as [Hx _]. by rewrite Hxid.
      * exists (finish req r0). split; [done |].
        destruct (finish_keys req r0) as [-> _]. by rewrite Hrid.
Qed.

Lemma respond_keeps_integrity_witness :
  referential_integrity (respond rated_db (Some carol) 1 (post [("question_1", "2")])).1.1.
Proof.
  apply (respond_keeps_integrity rated_db (Some carol) 1 (post [("question_1", "2")])).
  exact rated_db_integrity.
Defined.

(** ** Reordering questions *)

Lemma insert_by_order_sorted (a : Question.t) (l : list Question.t) :
  StronglySorted by_order_index l → StronglySorted by_order_index (insert_by_order a l).
Proof.
  induction 1 as [| y l Hl IH Hy]; simpl.
  - repeat constructor.
  - destruct (Z.leb_spec (Question.order_index a) (Question.order_index y)) as [Hle | Hgt].
    + constructor; [by constructor |]. constructor; [done |].
      eapply Forall_impl; [exact Hy |]. unfold by_order_index. intros z Hz. lia.
    + constructor; [done |]. rewrite insert_by_order_perm.
      constructor; [unfold by_order_index; lia | done].
Qed.

Lemma order_by_index_sorted (l : list Question.t) :
  StronglySorted by_order_index (order_by_index l).
Proof.
  unfold order_by_index. induction l as [| a l IH]; [constructor |].
  simpl. by apply insert_by_order_sorted.
Qed.

Lemma StronglySorted_lookup_2 {A} (R : relation A) (l : list A) :
  (∀ i j x y, l !! i = Some x → l !! j = Some y → (i < j)%nat → R x y) →
  StronglySorted R l.
Proof.
  induction l as [| a l IH]; intros H; [constructor |].
  constructor.
  - apply IH. intros i j x y Hi Hj Hij. apply (H (S i) (S j)); [done | done | lia].
  - apply Forall_forall. intros y Hy.
    apply list_elem_of_lookup in Hy as [j Hj].
    apply (H 0%nat (S j)); [done | done | lia].
Qed.

Lemma question_skeleton_update (i : Z) (n : Z) (l : list Question.t) :
  question_skeleton (update_question_rows i (set_order_index n) l) = question_skeleton l.
Proof.
  unfold question_skeleton, update_question_rows. rewrite <- list_fmap_compose.
  apply list_fmap_ext. intros _ x _. simpl. by destruct (Question.id x =? i).
Qed.

Lemma reorder_step_skeleton qn s item :
  question_skeleton (questions (reorder_step qn s item)) = question_skeleton (questions s).
Proof.
  unfold reorder_step. destruct (get_question s (snd item)) as [question |]; [| done].
  destruct (_ =? qn); [| done]. simpl. apply question_skeleton_update.
Qed.

Lemma reorder_step_other qn s item (x' : Question.t) :
  x' ∈ questions (reorder_step qn s item) → Question.id x' ≠ snd item →
  x' ∈ questions s.
Proof.
  unfold reorder_step. destruct (get_question s (snd item)) as [question |] eqn:Hg; [| done].
  destruct (get_question_id _ _ _ Hg) as [Hid _].
  destruct (_ =? qn); [| done]. simpl. unfold update_question_rows.
  intros (x & -> & Hx)%list_elem_of_fmap.
  destruct (Z.eqb_spec (Question.id x) (Question.id question)) as [E | E]; [| done].
  simpl. congruence.
Qed.

Lemma reorder_step_hit qn s (n : nat) (i : Z) (question x' : Question.t) :
  get_question s i = Some question →
  Question.questionnaire_id question = qn →
  x' ∈ questions (reorder_step qn s (n, i)) → Question.id x' = i →
  Question.order_index x' = Z.of_nat n.
Proof.
  intros Hg Hqn. unfold reorder_step. simpl. rewrite Hg, Hqn, Z.eqb_refl. simpl.
  destruct (get_question_id _ _ _ Hg) as [Hid _].
  unfold update_question_rows. intros (x & -> & Hx)%list_elem_of_fmap.
  destruct (Z.eqb_spec (Question.id x) (Question.id question)) as [E | E]; [done |].
  congruence.
Qed.

(** With the same keys in the table, a key is found where it was. *)
Lemma get_question_skeleton (db s : Db) (x : Question.t) :
  NoDup (Question.id <$> questions db) →
  question_skeleton (questions s) = question_skeleton (questions db) →
  x ∈ questions db →
  ∃ x', get_question s (Question.id x) = Some x'
        ∧ Question.questionnaire_id x' = Question.questionnaire_id x.
Proof.
  intros Hnd Hsk Hx. unfold question_skeleton in Hsk.
  assert ((Question.id x, Question.questionnaire_id x)
          ∈ (λ x, (Question.id x, Question.questionnaire_id x)) <$> questions s)
    as Hin
    by (rewrite Hsk;
        by apply (list_elem_of_fmap_2 (λ x, (Question.id x, Question.questionnaire_id x)))).
  apply list_elem_of_fmap in Hin as (y & Hy & Hyin).
  destruct (list_find_elem_of (λ q, Question.id q = Question.id x) (questions s) y)
    as [[k x'] Hfind]; [done | congruence |].
  exists x'. unfold get_question. rewrite Hfind. split; [done |].
  apply list_find_Some in Hfind as (Hk & Hid & _).
  apply list_elem_of_lookup_2 in Hk.
  assert ((Question.id x', Question.questionnaire_id x')
          ∈ (λ x, (Question.id x, Question.questionnaire_id x)) <$> questions db)
    as Hin'
    by (rewrite <- Hsk;
        by apply (list_elem_of_fmap_2 (λ x, (Question.id x, Question.questionnaire_id x)))).
  apply list_elem_of_fmap in Hin' as (z & Hz & Hzin).
  injection Hz as Hz1 Hz2.
  assert (z = x) as -> by (apply (NoDup_fmap_eq Question.id (questions db)); congruence).
  done.
Qed.

Lemma reorder_loop (db : Db) (qn : Z) (ids : list Z) :
  NoDup (Question.id <$> questions db) →
  NoDup ids →
  (∀ i, i ∈ ids → ∃ x, x ∈ questions db ∧ Question.id x = i
                       ∧ Question.questionnaire_id x = qn) →
  let final := foldl (reorder_step qn) db (imap (λ n i, (n, i)) ids) in
  question_skeleton (questions final) = question_skeleton (questions db)
  ∧ ∀ x' (j : nat), x' ∈ questions final → ids !! j = Some (Question.id x') →
                    Question.order_index x' = Z.of_nat j.
Proof.
  intros Hnd. induction ids as [| i ids IH] using rev_ind; intros Hids Hall final.
  - split; [done |]. by intros x' j _ ?.
  - apply NoDup_app in Hids as (Hids & Hfresh & _).
    destruct IH as [Hsk Hord]; [done | |].
    { intros k Hk. apply Hall, elem_of_app. by left. }
    unfold final. rewrite imap_app, foldl_app. simpl.
    set (mid := foldl (reorder_step qn) db (imap (λ n i, (n, i)) ids)) in *.
    rewrite Nat.add_0_r. split.
    + by rewrite reorder_step_skeleton.
    + intros x' j Hx' Hj.
      destruct (Hall i) as (x & Hx & Hxid & Hxqn);
        [apply elem_of_app; right; by left |].
      destruct (get_question_skeleton db mid x Hnd Hsk Hx) as (xm & Hgm & Hqm).
      rewrite Hxid in Hgm.
      destruct (decide (j < length ids)%nat) as [Hlt | Hge].
      * rewrite lookup_app_l in Hj by done.
        apply Hord; [| done]. eapply reorder_step_other; [exact Hx' |]. simpl.
        intros E. apply (Hfresh i); [| by left].
        rewrite <- E. by eapply list_elem_of_lookup_2.
      * rewrite lookup_app_r in Hj by lia.
        destruct (j - length ids)%nat as [| m] eqn:Ej; [| by destruct m].
        injection Hj as Hj. assert (j = length ids) as -> by lia.
        apply (reorder_step_hit qn mid (length ids) i xm x' Hgm);
          [congruence | exact Hx' | done].
Qed.

Lemma StronglySorted_fmap_elem {A B} (f : A → B) (R1 : relation A) (R2 : relation B)
    (l : list A) :
  StronglySorted R1 l →
  (∀ x y, x ∈ l → y ∈ l → R1 x y → R2 (f x) (f y)) →
  StronglySorted R2 (f <$> l).
Proof.
  induction 1 as [| a l Hl IH Ha]; intros HR; [constructor |].
  rewrite fmap_cons. constructor.
  - apply IH. intros x y Hx Hy. apply HR; by right.
  - rewrite Forall_fmap. apply Forall_forall. intros y Hy. simpl.
    rewrite Forall_forall in Ha. apply HR; [by left | by right | by apply Ha].
Qed.

Lemma question_skeleton_filter (qn : Z) (l l' : list Question.t) :
  question_skeleton l = question_skeleton l' →
  Question.id <$> filter (λ x, Question.questionnaire_id x = qn) l
  = Question.id <$> filter (λ x, Question.questionnaire_id x = qn) l'.
Proof.
  unfold question_skeleton. revert l'.
  induction l as [| x l IH]; intros [| y l'] E; try done.
  rewrite !fmap_cons in E. injection E as Hid Hqn E.
  rewrite !filter_cons. destruct (decide _) as [Hx | Hx].
  - rewrite decide_True by congruence. rewrite !fmap_cons. f_equal; [done | by apply IH].
  - rewrite decide_False by congruence. by apply IH.
Qed.

(** Reordering works: when the request lists the questions of the
    questionnaire, each once, the questionnaire shows them in that order. *)
Theorem reorder_questions_orders
    (db : Db) (u : User.t) (qid : Z) (ids : list Z) (q : Questionnaire.t) :
  NoDup (Question.id <$> questions db) →
  get_questionnaire db qid = Some q →
  can_edit_questionnaire u q = true →
  ids ≡ₚ Question.id <$> questions_of db (Questionnaire.id q) →
  Question.id <$> get_questions (reorder_questions db u (Some qid) ids).1 q = ids.
Proof.
  intros Hnd Hq Hedit Hperm. unfold reorder_questions. simpl. rewrite Hq, Hedit. simpl.
  assert (NoDup ids) as Hids.
  { rewrite Hperm. eapply sublist_NoDup; [exact Hnd |].
    apply fmap_sublist. unfold questions_of. apply sublist_filter. }
  assert (∀ i, i ∈ ids → ∃ x, x ∈ questions db ∧ Question.id x = i
                              ∧ Question.questionnaire_id x = Questionnaire.id q) as Hall.
  { intros i Hi. rewrite Hperm in Hi. apply list_elem_of_fmap in Hi as (x & -> & Hx).
    unfold questions_of in Hx. apply list_elem_of_filter in Hx as [Hqn Hx]. by exists x. }
  destruct (reorder_loop db (Questionnaire.id q) ids Hnd Hids Hall) as [Hsk Hord].
  set (final := foldl (reorder_step (Questionnaire.id q)) db (imap (λ n i, (n, i)) ids)) in *.
  assert (Question.id <$> get_questions final q ≡ₚ ids) as HP.
  { unfold get_questions. rewrite order_by_index_perm. unfold questions_of.
    rewrite (question_skeleton_filter _ _ _ Hsk). by symmetry. }
  apply (StronglySorted_unique_strong (not_after ids)).
  - intros x1 x2 Hx1 Hx2 H12 H21. rewrite HP in Hx1.
    apply list_elem_of_lookup in Hx1 as [p1 Hp1].
    apply list_elem_of_lookup in Hx2 as [p2 Hp2].
    pose proof (H12 p1 p2 Hp1 Hp2). pose proof (H21 p2 p1 Hp2 Hp1).
    assert (p1 = p2) as -> by lia. congruence.
  - apply (StronglySorted_fmap_elem _ by_order_index); [apply order_by_index_sorted |].
    intros x y Hx Hy Hxy p1 p2 Hp1 Hp2.
    apply elem_of_get_questions in Hx as [Hx _].
    apply elem_of_get_questions in Hy as [Hy _].
    pose proof (Hord x p1 Hx Hp1). pose proof (Hord y p2 Hy Hp2).
    unfold by_order_index in Hxy. lia.
  - apply StronglySorted_lookup_2. intros i j x y Hi Hj Hij p1 p2 Hp1 Hp2.
    assert (p1 = i) as -> by by eapply NoDup_lookup.
    assert (p2 = j) as -> by by eapply NoDup_lookup.
    lia.
  - exact HP.
Qed.

Lemma reorder_questions_orders_witness :
  Question.id <$> get_questions (reorder_questions two_questions_db dave (Some 1) [2; 1]).1
                                survey
  = [2; 1].
Proof.
  apply (reorder_questions_orders two_questions_db dave 1 [2; 1] survey).
  - vm_compute. apply NoDup_cons. split; [| apply NoDup_singleton].
    intros H%list_elem_of_singleton. discriminate H.
  - reflexivity.
  - reflexivity.
  - vm_compute. apply Permutation_swap.
Defined.

(** ** Listing and viewing *)

Lemma get_questionnaire_elem (db : Db) (q : Questionnaire.t) :
  NoDup (Questionnaire.id <$> questionnaires db) →
  q ∈ questionnaires db →
  get_questionnaire db (Questionnaire.id q) = Some q.
Proof.
  intros Hnd Hq.
  destruct (list_find_elem_of (λ x, Questionnaire.id x = Questionnaire.id q)
                              (questionnaires db) q) as [[k x] Hfind]; [done | done |].
  unfold get_questionnaire. rewrite Hfind. simpl. f_equal.
  apply list_find_Some in Hfind as (Hk & Hid & _).
  apply list_elem_of_lookup_2 in Hk.
  by apply (NoDup_fmap_eq Questionnaire.id (questionnaires db)).
Qed.

(** The list shows exactly the active questionnaires that the same actor,
    logged in or not, is allowed to open. *)
Theorem listed_iff_viewable (db : Db) (user : option User.t) (q : Questionnaire.t) :
  NoDup (Questionnaire.id <$> questionnaires db) →
  q ∈ list_questionnaires db user
  ↔ q ∈ questionnaires db
    ∧ Questionnaire.is_active q = true
    ∧ view db user (Questionnaire.id q) = PageRendered.
Proof.
  intros Hnd. unfold list_questionnaires, view. split.
  - intros Hin.
    assert (q ∈ questionnaires db) as Hq.
    { destruct user as [u |]; [destruct (is_admin u) |];
        by apply list_elem_of_filter in Hin as [_ ?]. }
    rewrite (get_questionnaire_elem db q Hnd Hq). split; [done |].
    destruct user as [u |].
    + unfold can_access_questionnaire. destruct (is_admin u).
      * by apply list_elem_of_filter in Hin as [? _].
      * apply list_elem_of_filter in Hin as [[Hact [Hpub | Hown]] _]; split; try done.
        -- destruct (_ =? _); [done |]. by rewrite Hpub.
        -- by rewrite Hown, Z.eqb_refl.
    + apply list_elem_of_filter in Hin as [[Hact Hpub] _]. by rewrite Hpub.
  - intros (Hq & Hact & Hview).
    rewrite (get_questionnaire_elem db q Hnd Hq) in Hview.
    destruct user as [u |].
    + unfold can_access_questionnaire in Hview. destruct (is_admin u).
      * by apply list_elem_of_filter.
      * apply list_elem_of_filter. split; [| done]. split; [done |].
        destruct (Z.eqb_spec (Questionnaire.creator_id q) (User.id u)); [by right |].
        left. by destruct (Questionnaire.is_public q).
    + apply list_elem_of_filter. split; [| done]. split; [done |].
      by destruct (Questionnaire.is_public q).
Qed.

Lemma listed_iff_viewable_witness :
  survey ∈ list_questionnaires rating_db (Some carol)
  ↔ survey ∈ questionnaires rating_db
    ∧ Questionnaire.is_active survey = true
    ∧ view rating_db (Some carol) (Questionnaire.id survey) = PageRendered.
Proof.
  apply (listed_iff_viewable rating_db (Some carol) survey).
  vm_compute. apply NoDup_singleton.
Defined.

(** ** What is submitted is what is stored *)

Lemma rows_step_ids rid req rows question :
  NoDup (Answer.id <$> rows) → NoDup (Answer.id <$> rows_step rid req rows question).
Proof.
  intros Hnd.
  destruct (rows_step_other rid req rows question (rid + 1) Hnd) as [_ H]; [lia | done].
Qed.






(** The response a commit works on belongs to the questionnaire and to the
    actor. *)
Lemma committed_response_of db user q req :
  ∃ r0, finish req r0 ∈ responses (committed db user q req)
        ∧ answers (committed db user q req)
          = foldl (rows_step (Response.id r0) req) (answers db) (get_questions db q)
        ∧ Response.questionnaire_id r0 = Questionnaire.id q
        ∧ Response.user_id r0 = User.id <$> user.
Proof.
  destruct (user ≫= find_draft db q) as [r |] eqn:Hfd.
  - destruct user as [u |]; [| done]. simpl in Hfd.
    exists r. rewrite (committed_found db u q req r Hfd). simpl.
    split; [| split; [done |]].
    + apply elem_of_update_response_hit. by eapply find_draft_elem.
    + unfold find_draft in Hfd.
      destruct (list_find _ _) as [[i x] |] eqn:Hl; [| done].
      simpl in Hfd. simplify_eq.
      by apply list_find_Some in Hl as (_ & (? & ? & _) & _).
  - exists (new_response db q user req). rewrite (committed_new db user q req Hfd).
    cbn [responses answers]. split; [| done].
    apply elem_of_update_response_hit, elem_of_app. right. by left.
Qed.


(** The view writes only for a POST to an active questionnaire the actor may
    respond to, in which every required question has a value; any other
    request, a page load among them, leaves the database as it is. *)
Theorem respond_writes_only_when_accepted
    (db : Db) (user : option User.t) (id : Z) (req : Request) :
  (respond db user id req).1.1 = db
  ∨ ∃ q, get_questionnaire db id = Some q
         ∧ Questionnaire.is_active q = true
         ∧ can_user_respond db q user = true
         ∧ method req = POST
         ∧ ∀ x, x ∈ get_questions db q → Question.is_required x = true →
                truthy (form_get (field_name x) (form req)) = true.
Proof.
  destruct (accepted db user id req) as [q |] eqn:Hacc.
  - right. exists q.
    destruct (accepted_inv _ _ _ _ _ Hacc) as (Hq & Hact & Hcan & Hpost & Hall).
    repeat (split; [done |]).
    intros x Hx Hr. rewrite forallb_forall in Hall.
    specialize (Hall x (proj1 (list_elem_of_In _ _) Hx)).
    unfold passes_required in Hall. rewrite Hr in Hall. simpl in Hall.
    by destruct (truthy _).
  - left. by apply respond_rejected.
Qed.

(** ** Scale answers that are not numbers *)

Lemma int_of_float_raise (x : pyfloat) :
  (∃ e, int_of_float x = Raise e) ↔ isfinite x = false.
Proof.
  destruct x; simpl; split; try done; try by eexists.
  by intros [? ?].
Qed.

Lemma foldl_count_scale_raise (l : list Answer.t) (d : result (gmap string nat)) :
  (∃ e, foldl count_scale d l = Raise e)
  ↔ (∃ e, d = Raise e)
    ∨ ∃ a x, a ∈ l ∧ Answer.answer_value a = Some x ∧ isfinite x = false.
Proof.
  revert d. induction l as [| a l IH]; intros d; simpl.
  - split; [by left |]. intros [H | (a & x & Ha & _)]; [done |].
    by apply elem_of_nil in Ha.
  - rewrite IH. split.
    + intros [[e He] | (a' & x & Ha' & Hx & Hf)].
      * unfold count_scale in He. destruct d as [d | e']; [| left; by eexists].
        destruct (Answer.answer_value a) as [x |] eqn:Hx; [| done].
        right. exists a, x. split; [by left |]. split; [done |].
        apply int_of_float_raise. destruct (int_of_float x); [done | by eexists].
      * right. exists a', x. split; [by right | done].
    + intros [[e ->] | (a' & x & Ha' & Hx & Hf)].
      * left. by exists e.
      * apply elem_of_cons in Ha' as [-> | Ha'].
        -- left. unfold count_scale. destruct d as [d | e]; [| by eexists].
           rewrite Hx. apply int_of_float_raise in Hf as [e ->]. by eexists.
        -- right. by exists a', x.
Qed.


Lemma count_up_lookup (d : gmap string nat) (key k : string) :
  default 0%nat (count_up d key !! k)
  = (default 0%nat (d !! k) + if decide (key = k) then 1 else 0)%nat.
Proof.
  unfold count_up. destruct (decide (key = k)) as [-> | Hne].
  - by rewrite lookup_insert_eq.
  - rewrite lookup_insert_ne by done. lia.
Qed.

Lemma foldl_count_scale_Raise (l : list Answer.t) (e : exn) :
  foldl count_scale (Raise e) l = Raise e.
Proof. induction l as [| a l IH]; [done |]. simpl. exact IH. Qed.

Lemma foldl_count_scale_Ok (l : list Answer.t) (d0 d : gmap string nat) (k : string) :
  foldl count_scale (Ok d0) l = Ok d →
  default 0%nat (d !! k)
  = (default 0%nat (d0 !! k) + length (filter (λ a, scale_key a = Some k) l))%nat.
Proof.
  revert d0. induction l as [| a l IH]; intros d0; simpl.
  - intros [= ->]. lia.
  - rewrite filter_cons. unfold count_scale at 1.
    destruct (Answer.answer_value a) as [[q | b |] |] eqn:Hv; simpl.
    + assert (scale_key a = Some (str_of_int (Z.quot (Qnum q) (Z.pos (Qden q))))) as Hk
        by (unfold scale_key; by rewrite Hv).
      intros Hd. rewrite (IH _ Hd), count_up_lookup.
      destruct (decide (str_of_int (Z.quot (Qnum q) (Z.pos (Qden q))) = k)) as [E | Hne].
      * rewrite decide_True by congruence. simpl. lia.
      * rewrite decide_False by congruence. lia.
    + by rewrite foldl_count_scale_Raise.
    + by rewrite foldl_count_scale_Raise.
    + assert (scale_key a = None) as Hk by (unfold scale_key; by rewrite Hv).
      intros Hd. rewrite (IH _ Hd). rewrite decide_False by congruence. lia.
Qed.

(** The statistics of a scale question raise exactly when a completed
    response holds an infinity or a NaN for it.  Otherwise they report the
    number of its completed answers and count, under each key, the completed
    answers whose value has that integer part. *)
Theorem scale_statistics_raise (db : Db) (question : Question.t) :
  Question.question_type question = "scale_1_5" →
  ((∃ e, get_answer_statistics db question = Raise e)
   ↔ ∃ a x, a ∈ complete_answers db question
            ∧ Answer.answer_value a = Some x ∧ isfinite x = false)
  ∧ (∀ stats, get_answer_statistics db question = Ok stats →
              total_answers stats = length (complete_answers db question)
              ∧ sample_responses stats = None
              ∧ ∀ k, default 0%nat (answer_distribution stats !! k)
                     = length (filter (λ a, scale_key a = Some k)
                                      (complete_answers db question))).
Proof.
  intros Hty. unfold get_answer_statistics. rewrite Hty. simpl. split.
  - pose proof (foldl_count_scale_raise (complete_answers db question) (Ok ∅)) as H.
    destruct (foldl count_scale (Ok ∅) _) as [d | e].
    + split; [by intros [? ?] |]. intros Hx.
      destruct H as [_ H]. destruct H as [? ?]; [by right | done].
    + split; [| by eexists]. intros _.
      destruct H as [H _]. destruct H as [[? ?] | ?]; [by eexists | done | done].
  - intros stats. destruct (foldl _ _ _) as [d | e] eqn:Hd; [| done].
    intros [= <-]. simpl. split; [done |]. split; [done |]. intros k.
    rewrite (foldl_count_scale_Ok _ _ _ k Hd). by rewrite lookup_empty.
Qed.

Lemma scale_statistics_raise_witness :
  ((∃ e, get_answer_statistics rated_db rating = Raise e)
   ↔ ∃ a x, a ∈ complete_answers rated_db rating
            ∧ Answer.answer_value a = Some x ∧ isfinite x = false)
  ∧ (∀ stats, get_answer_statistics rated_db rating = Ok stats →
              total_answers stats = length (complete_answers rated_db rating)
              ∧ sample_responses stats = None
              ∧ ∀ k, default 0%nat (answer_distribution stats !! k)
                     = length (filter (λ a, scale_key a = Some k)
                                      (complete_answers rated_db rating))).
Proof.
  apply (scale_statistics_raise rated_db rating). reflexivity.
Defined.

Lemma accepted_intro db user id req q :
  get_questionnaire db id = Some q →
  can_user_respond db q user = true →
  method req = POST →
  (∀ x, x ∈ get_questions db q → Question.is_required x = true →
        truthy (form_get (field_name x) (form req)) = true) →
  accepted db user id req = Some q.
Proof.
  intros Hq Hcan Hpost Hreq.
  assert (Questionnaire.is_active q = true) as Hact.
  { unfold can_user_respond in Hcan. by destruct (Questionnaire.is_active q). }
  unfold accepted. rewrite Hq, Hact, Hcan, Hpost. simpl.
  destruct (forallb _ _) eqn:Hf; [done |]. exfalso.
  apply not_true_iff_false in Hf. apply Hf. apply forallb_forall.
  intros x Hx%list_elem_of_In. unfold passes_required.
  destruct (Question.is_required x) eqn:Hr; [| done].
  by rewrite (Hreq x Hx Hr).
Qed.




(** ** Settings *)

Lemma get_questionnaire_update (db : Db) (i id : Z) (g : Questionnaire.t → Questionnaire.t) :
  (∀ x, Questionnaire.id (g x) = Questionnaire.id x) →
  get_questionnaire (with_questionnaires db
                       (update_questionnaire i g (questionnaires db))) id
  = (λ x, if Questionnaire.id x =? i then g x else x) <$> get_questionnaire db id.
Proof.
  intros Hg. unfold get_questionnaire, update_questionnaire. simpl.
  rewrite list_find_fmap.
  rewrite (list_find_ext _ (λ x, Questionnaire.id x = id)).
  - by destruct (list_find _ _) as [[n x] |].
  - intros x. simpl. destruct (Questionnaire.id x =? i); by rewrite ?Hg.
Qed.

(** Saved settings are what the next request sees: the questionnaire carries
    the four submitted flags, every other questionnaire and all questions,
    responses and answers are untouched, and once deactivated the
    questionnaire turns every respondent away without writing anything. *)
Theorem settings_take_effect
    (db : Db) (u : User.t) (id : Z) (f : SettingsFormData) (q : Questionnaire.t) :
  get_questionnaire db id = Some q →
  can_edit_questionnaire u q = true →
  get_questionnaire (settings db u id (Some f)).1 id = Some (apply_settings f q)
  ∧ (∀ id', id' ≠ id →
            get_questionnaire (settings db u id (Some f)).1 id' = get_questionnaire db id')
  ∧ questions (settings db u id (Some f)).1 = questions db
  ∧ responses (settings db u id (Some f)).1 = responses db
  ∧ answers (settings db u id (Some f)).1 = answers db
  ∧ (settings_is_active f = false →
     ∀ user req, respond (settings db u id (Some f)).1 user id req
                 = ((settings db u id (Some f)).1, [NotActive], RedirectView)).
Proof.
  intros Hq Hedit. unfold settings. rewrite Hq, Hedit. simpl.
  destruct (get_questionnaire_id _ _ _ Hq) as [Hid _].
  assert (get_questionnaire
            (with_questionnaires db
               (update_questionnaire (Questionnaire.id q) (apply_settings f)
                                     (questionnaires db))) id
          = Some (apply_settings f q)) as Hnew.
  { rewrite get_questionnaire_update by done. rewrite Hq. simpl.
    by rewrite Z.eqb_refl. }
  split; [done |]. split; [| repeat (split; [done |])].
  - intros id' Hne. rewrite get_questionnaire_update by done.
    destruct (get_questionnaire db id') as [x |] eqn:Hx; [| done]. simpl.
    destruct (get_questionnaire_id _ _ _ Hx) as [Hid' _].
    destruct (Z.eqb_spec (Questionnaire.id x) (Questionnaire.id q)); [congruence | done].
  - intros Hoff user req. unfold respond. rewrite Hnew. simpl. by rewrite Hoff.
Qed.

Lemma settings_take_effect_witness :
  get_questionnaire
    (settings rated_db dave 1 (Some (mkSettingsFormData false true false false))).1 1
  = Some (apply_settings (mkSettingsFormData false true false false) survey)
  ∧ (∀ id', id' ≠ 1 →
            get_questionnaire
              (settings rated_db dave 1
                        (Some (mkSettingsFormData false true false false))).1 id'
            = get_questionnaire rated_db id')
  ∧ questions (settings rated_db dave 1
                        (Some (mkSettingsFormData false true false false))).1
    = questions rated_db
  ∧ responses (settings rated_db dave 1
                        (Some (mkSettingsFormData false true false false))).1
    = responses rated_db
  ∧ answers (settings rated_db dave 1
                      (Some (mkSettingsFormData false true false false))).1
    = answers rated_db
  ∧ (settings_is_active (mkSettingsFormData false true false false) = false →
     ∀ user req,
       respond (settings rated_db dave 1
                         (Some (mkSettingsFormData false true false false))).1 user 1 req
       = ((settings rated_db dave 1
                    (Some (mkSettingsFormData false true false false))).1,
          [NotActive], RedirectView)).
Proof.
  apply (settings_take_effect rated_db dave 1 (mkSettingsFormData false true false false)
           survey).
  - reflexivity.
  - reflexivity.
Defined.

(** ** Administration *)

Lemma get_user_id (db : Db) (id : Z) (u : User.t) :
  get_user db id = Some u → User.id u = id ∧ u ∈ users db.
Proof.
  unfold get_user. destruct (list_find _ _) as [[i x] |] eqn:Hl; [| done].
  intros [= <-]. apply list_find_Some in Hl as (Hi & Hid & _).
  split; [done | by eapply list_elem_of_lookup_2].
Qed.

Lemma update_user_accounts (i : Z) (g : User.t → User.t) (l : list User.t) :
  (∀ x, account (g x) = account x) →
  account <$> update_user i g l = account <$> l.
Proof.
  intros Hg. unfold update_user. rewrite <- list_fmap_compose.
  apply list_fmap_ext. intros _ x _. simpl.
  destruct (User.id x =? i); by rewrite ?Hg.
Qed.

(** An administrator cannot lose the own account through the user
    administration: whatever user and role the two routes are called with,
    the administrator's row stays as it is, and no account is added, removed
    or renamed. *)
Theorem admin_keeps_own_account
    (db : Db) (admin : User.t) (user_id : Z) (new_role : option string) :
  admin ∈ users db →
  is_admin admin = true →
  admin ∈ users (toggle_user_status db (Some admin) user_id).1
  ∧ admin ∈ users (change_user_role db (Some admin) user_id new_role).1
  ∧ account <$> users (toggle_user_status db (Some admin) user_id).1
    = account <$> users db
  ∧ account <$> users (change_user_role db (Some admin) user_id new_role).1
    = account <$> users db.
Proof.
  intros Hin Hadm. unfold toggle_user_status, change_user_role. rewrite Hadm. simpl.
  destruct (get_user db user_id) as [user |] eqn:Hu; [| done].
  split; [| split; [| split]].
  - destruct (Z.eqb_spec (User.id user) (User.id admin)) as [E | E]; [done |]. simpl.
    unfold update_user. apply list_elem_of_fmap. exists admin. split; [| done].
    destruct (Z.eqb_spec (User.id admin) (User.id user)); [congruence | done].
  - destruct (known_role new_role); [| done]. simpl.
    destruct (Z.eqb_spec (User.id user) (User.id admin)) as [E | E]; simpl.
    + destruct (String.eqb_spec (default "" new_role) "admin") as [-> | _]; [| done].
      simpl. unfold update_user. apply list_elem_of_fmap. exists admin. split; [| done].
      rewrite E, Z.eqb_refl. apply is_admin_true in Hadm.
      destruct admin. simpl in *. by subst.
    + unfold update_user. apply list_elem_of_fmap. exists admin. split; [| done].
      destruct (Z.eqb_spec (User.id admin) (User.id user)); [congruence | done].
  - destruct (_ =? _); [done |]. simpl. by apply update_user_accounts.
  - destruct (known_role new_role); [| done]. simpl.
    destruct (_ && _); [done |]. simpl. by apply update_user_accounts.
Qed.

Lemma admin_keeps_own_account_witness :
  erin ∈ users (toggle_user_status (mkDb [carol; erin] [] [] [] []) (Some erin) 9).1
  ∧ erin ∈ users (change_user_role (mkDb [carol; erin] [] [] [] []) (Some erin) 9
                                   (Some "user")).1
  ∧ account <$> users (toggle_user_status (mkDb [carol; erin] [] [] [] []) (Some erin) 9).1
    = account <$> users (mkDb [carol; erin] [] [] [] [])
  ∧ account <$> users (change_user_role (mkDb [carol; erin] [] [] [] []) (Some erin) 9
                                        (Some "user")).1
    = account <$> users (mkDb [carol; erin] [] [] [] []).
Proof.
  apply (admin_keeps_own_account (mkDb [carol; erin] [] [] [] []) erin 9 (Some "user")).
  - vm_compute. right. left.
  - reflexivity.
Defined.

(** Switching a user or a questionnaire on and off again restores the
    database, whoever asks and whatever the target. *)
Theorem toggle_twice_restores (db : Db) (actor : option User.t) (id : Z) :
  (toggle_user_status (toggle_user_status db actor id).1 actor id).1 = db
  ∧ (toggle_questionnaire_status (toggle_questionnaire_status db actor id).1 actor id).1
    = db.
Proof.
  split.
  - unfold toggle_user_status. destruct actor as [admin |]; [| done].
    destruct (is_admin admin) eqn:Hadm; simpl; [| done].
    destruct (get_user db id) as [user |] eqn:Hu; simpl.
    2:{ by rewrite ?Hu. }
    destruct (User.id user =? User.id admin) eqn:Hself; simpl.
    { by rewrite ?Hu, ?Hself. }
    assert (get_user (with_users db
                        (update_user (User.id user)
                           (λ u, set_user_is_active (negb (User.is_active u)) u)
                           (users db))) id
            = Some (set_user_is_active (negb (User.is_active user)) user)) as ->.
    { unfold get_user, update_user in *. simpl. rewrite list_find_fmap.
      rewrite (list_find_ext _ (λ u, User.id u = id)).
      - destruct (list_find _ (users db)) as [[n x] |]; [| done].
        simpl in *. simplify_eq. by rewrite Z.eqb_refl.
      - intros x. simpl. by destruct (User.id x =? User.id user). }
    simpl. rewrite Hself. simpl. destruct db as [us qns qs rs ans].
    unfold with_users. simpl. f_equal.
    unfold update_user. rewrite <- list_fmap_compose.
    rewrite <- (list_fmap_id us) at 2. apply list_fmap_ext. intros _ x _. simpl.
    destruct (User.id x =? User.id user) eqn:E; simpl; rewrite E; [| done].
    destruct x. simpl. by rewrite negb_involutive.
  - unfold toggle_questionnaire_status. destruct actor as [admin |]; [| done].
    destruct (is_admin admin) eqn:Hadm; simpl; [| done].
    destruct (get_questionnaire db id) as [q |] eqn:Hq; simpl.
    2:{ by rewrite ?Hq. }
    rewrite get_questionnaire_update by done. rewrite Hq. simpl.
    rewrite Z.eqb_refl. simpl. destruct db as [us qns qs rs ans].
    unfold with_questionnaires. simpl. f_equal.
    unfold update_questionnaire. rewrite <- list_fmap_compose.
    rewrite <- (list_fmap_id qns) at 2. apply list_fmap_ext. intros _ x _. simpl.
    destruct (Questionnaire.id x =? Questionnaire.id q) eqn:E; simpl; rewrite E; [| done].
    destruct x. simpl. by rewrite negb_involutive.
Qed.

(** ** Registration *)

Lemma find_by_username_None (db : Db) (name : string) :
  find_by_username db name = None → name ∉ User.username <$> users db.
Proof.
  unfold find_by_username. rewrite fmap_None, list_find_None, Forall_forall.
  intros Hall (u & -> & Hu)%list_elem_of_fmap. by apply (Hall u).
Qed.

Lemma find_by_email_None (db : Db) (email : string) :
  find_by_email db email = None → email ∉ User.email <$> users db.
Proof.
  unfold find_by_email. rewrite fmap_None, list_find_None, Forall_forall.
  intros Hall (u & -> & Hu)%list_elem_of_fmap. by apply (Hall u).
Qed.

Lemma NoDup_snoc {A} (l : list A) (x : A) : NoDup l → x ∉ l → NoDup (l ++ [x]).
Proof.
  intros Hl Hx. apply NoDup_app. split; [done |]. split; [| apply NoDup_singleton].
  by intros y Hy ->%list_elem_of_singleton.
Qed.

(** Registration never runs into the unique constraints of the users table:
    keys, user names and e-mail addresses stay pairwise distinct.  It adds at
    most one account, at the end of the table, and that account is active,
    is not an administrator and has the submitted name. *)
Theorem register_keeps_accounts_unique
    (valid_email : string → bool) (db : Db) (actor : option User.t)
    (submitted : option RegistrationFormData) :
  NoDup (User.id <$> users db) →
  NoDup (User.username <$> users db) →
  NoDup (User.email <$> users db) →
  NoDup (User.id <$> users (register valid_email db actor submitted).1)
  ∧ NoDup (User.username <$> users (register valid_email db actor submitted).1)
  ∧ NoDup (User.email <$> users (register valid_email db actor submitted).1)
  ∧ ((register valid_email db actor submitted).1 = db
     ∨ ∃ f u, actor = None ∧ submitted = Some f
              ∧ users (register valid_email db actor submitted).1 = users db ++ [u]
              ∧ reg_username f = Some (User.username u)
              ∧ reg_email f = Some (User.email u)
              ∧ valid_email (User.email u) = true
              ∧ User.is_active u = true
              ∧ (User.role u = "user" ∨ User.role u = "creator")).
Proof.
  intros Hid Hname Hmail. unfold register.
  destruct actor as [a |]; [by auto |].
  destruct submitted as [f |]; [| by auto].
  destruct (RegistrationForm_validate valid_email db f) eqn:Hv; [| by auto].
  unfold RegistrationForm_validate in Hv.
  repeat match goal with
         | H : _ && _ = true |- _ => apply andb_prop in H as [? ?]
         end.
  repeat match goal with H : bool_decide _ = true |- _ => apply bool_decide_eq_true in H end.
  simpl. rewrite !fmap_app. simpl.
  split; [| split; [| split]].
  - apply NoDup_snoc; [done |]. intros Hin%next_id_fresh. lia.
  - apply NoDup_snoc; [done |]. by apply find_by_username_None.
  - apply NoDup_snoc; [done |]. by apply find_by_email_None.
  - right. eexists f, _. repeat (split; [reflexivity |]). simpl.
    split; [| split; [| split; [done | split; [done |]]]].
    + unfold data_required in *. by destruct (reg_username f).
    + unfold data_required in *. by destruct (reg_email f).
    + match goal with
      | H : String.eqb (selected_role f) _ || _ = true |- _ =>
          apply orb_prop in H as [H | H]; apply String.eqb_eq in H; auto
      end.
Qed.

Lemma register_keeps_accounts_unique_witness :
  NoDup (User.id <$> users (register (λ _, true) rating_db None
                              (Some (mkRegistrationFormData
                                       (Some "frank") (Some "frank@example.org")
                                       (Some "secret1") (Some "secret1") None))).1)
  ∧ NoDup (User.username <$> users (register (λ _, true) rating_db None
                              (Some (mkRegistrationFormData
                                       (Some "frank") (Some "frank@example.org")
                                       (Some "secret1") (Some "secret1") None))).1)
  ∧ NoDup (User.email <$> users (register (λ _, true) rating_db None
                              (Some (mkRegistrationFormData
                                       (Some "frank") (Some "frank@example.org")
                                       (Some "secret1") (Some "secret1") None))).1)
  ∧ ((register (λ _, true) rating_db None
               (Some (mkRegistrationFormData
                        (Some "frank") (Some "frank@example.org")
                        (Some "secret1") (Some "secret1") None))).1 = rating_db
     ∨ ∃ f u, None = (None : option User.t)
              ∧ Some (mkRegistrationFormData
                        (Some "frank") (Some "frank@example.org")
                        (Some "secret1") (Some "secret1") None) = Some f
              ∧ users (register (λ _, true) rating_db None
                         (Some (mkRegistrationFormData
                                  (Some "frank") (Some "frank@example.org")
                                  (Some "secret1") (Some "secret1") None))).1
                = users rating_db ++ [u]
              ∧ reg_username f = Some (User.username u)
              ∧ reg_email f = Some (User.email u)
              ∧ (λ _ : string, true) (User.email u) = true
              ∧ User.is_active u = true
              ∧ (User.role u = "user" ∨ User.role u = "creator")).
Proof.
  apply (register_keeps_accounts_unique (λ _, true) rating_db None
           (Some (mkRegistrationFormData (Some "frank") (Some "frank@example.org")
                                         (Some "secret1") (Some "secret1") None))).
  - vm_compute. apply NoDup_singleton.
  - vm_compute. apply NoDup_singleton.
  - vm_compute. apply NoDup_singleton.
Defined.

(** ** Displaying a stored answer *)


(** ** Writing needs the right to edit *)



(** ** What is shown of an anonymous respondent *)

Lemma string_length_app (s t : string) :
  String.length (s +:+ t) = (String.length s + String.length t)%nat.
Proof.
  induction s as [| c s IH]; [done |]. rewrite string_app_cons. simpl. by rewrite IH.
Qed.

Lemma string_take_length (n : nat) (s : string) :
  String.length (string_take n s) = (n `min` String.length s)%nat.
Proof.
  revert s. induction n as [| n IH]; intros [| c s]; simpl; try done.
  by rewrite IH.
Qed.

Lemma string_take_take_app (n : nat) (s t : string) :
  (n ≤ String.length s)%nat →
  string_take n (string_take n s +:+ t) = string_take n s.
Proof.
  revert s. induction n as [| n IH]; intros [| c s] Hn; simpl in *; try done.
  - lia.
  - rewrite IH; [done | lia].
Qed.

(** The user agent shown for a response without a user is never longer than
    103 characters, agrees with the stored one on the first hundred, and is
    the stored one when that has at most a hundred characters; the address
    is shown as stored. *)
Theorem respondent_info_bounded (db : Db) (r : Response.t)
    (ip_address user_agent : option string) :
  get_respondent_info db r = Anonymous ip_address user_agent →
  ip_address = Response.ip_address r
  ∧ (String.length (default "" user_agent) ≤ 103)%nat
  ∧ string_take 100 (default "" user_agent)
    = string_take 100 (default "" (Response.user_agent r))
  ∧ ((String.length (default "" (Response.user_agent r)) ≤ 100)%nat →
     user_agent = Response.user_agent r).
Proof.
  unfold get_respondent_info. destruct (_ ≫= _); [done |].
  set (ua := default "" (Response.user_agent r)).
  destruct (Nat.ltb_spec 100 (String.length ua)) as [Hlong | Hshort]; intros H.
  - assert (ip_address = Response.ip_address r) as -> by congruence.
    assert (user_agent = Some (string_take 100 ua +:+ "...")) as -> by congruence.
    change (default "" (Some (string_take 100 ua +:+ "...")))
      with (string_take 100 ua +:+ "...").
    split; [done |]. split; [| split].
    + rewrite string_length_app, string_take_length.
      change (String.length "...") with 3%nat. lia.
    + apply string_take_take_app. lia.
    + lia.
  - assert (ip_address = Response.ip_address r) as -> by congruence.
    assert (user_agent = Response.user_agent r) as -> by congruence.
    fold ua. split; [done |]. split; [lia |]. done.
Qed.

Lemma respondent_info_bounded_witness :
  Some "10.0.0.7" = Response.ip_address (Response.mk 1 1 None 500 true (Some "10.0.0.7")
                                                     (Some "curl"))
  ∧ (String.length (default "" (Some "curl")) ≤ 103)%nat
  ∧ string_take 100 (default "" (Some "curl"))
    = string_take 100 (default "" (Response.user_agent
                                     (Response.mk 1 1 None 500 true (Some "10.0.0.7")
                                                  (Some "curl"))))
  ∧ ((String.length (default "" (Response.user_agent
                                   (Response.mk 1 1 None 500 true (Some "10.0.0.7")
                                                (Some "curl")))) ≤ 100)%nat →
     Some "curl" = Response.user_agent (Response.mk 1 1 None 500 true (Some "10.0.0.7")
                                                    (Some "curl"))).
Proof.
  apply (respondent_info_bounded rating_db
           (Response.mk 1 1 None 500 true (Some "10.0.0.7") (Some "curl"))
           (Some "10.0.0.7") (Some "curl")).
  reflexivity.
Defined.

(** ** Drafts and the statistics *)

Lemma complete_answers_joined (db : Db) (question : Question.t) :
  complete_answers db question
  = flat_map (joined (responses db))
             (filter (λ a, Answer.question_id a = Question.id question) (answers db)).
Proof. reflexivity. Qed.

Lemma flat_map_filter_fmap {A B} (f : A → list B) (P : A → Prop)
    `{∀ x, Decision (P x)} (g : A → A) (l : list A) :
  (∀ x, x ∈ l → (P (g x) ↔ P x) ∧ f (g x) = f x) →
  flat_map f (filter P (g <$> l)) = flat_map f (filter P l).
Proof.
  induction l as [| a l IH]; intros Hg; [done |].
  rewrite fmap_cons, !filter_cons.
  destruct (Hg a) as [Hiff Hf]; [by left |].
  assert (∀ x, x ∈ l → (P (g x) ↔ P x) ∧ f (g x) = f x) as Hg'
    by (intros x Hx; apply Hg; by right).
  specialize (IH Hg').
  destruct (decide (P a)) as [Ha | Ha].
  - rewrite decide_True by by apply Hiff. simpl. by rewrite Hf, IH.
  - rewrite decide_False by by rewrite Hiff. done.
Qed.

(** A turn of the loop for a response that is not completed yields the same
    joined rows. *)
Lemma joined_rows_step rs rid req rows q qid :
  NoDup (Answer.id <$> rows) →
  filter (λ r, Response.id r = rid ∧ Response.is_complete r = true) rs = [] →
  flat_map (joined rs) (filter (λ a, Answer.question_id a = qid)
                               (rows_step rid req rows q))
  = flat_map (joined rs) (filter (λ a, Answer.question_id a = qid) rows).
Proof.
  intros Hnd Hnone. unfold rows_step, store_rows.
  destruct (truthy _); [| done].
  destruct (find_answer_id rid (Question.id q) rows) as [i |] eqn:Hf.
  - destruct (find_answer_id_elem _ _ _ _ Hf) as (b & Hb & Hid & Hr & _).
    unfold update_answer. apply flat_map_filter_fmap. intros x Hx.
    destruct (Z.eqb_spec (Answer.id x) i) as [E | E]; [| done].
    assert (x = b) as -> by (apply (NoDup_fmap_eq Answer.id rows); congruence).
    rewrite write_question_id. split; [done |].
    unfold joined. by rewrite write_response_id, Hr, Hnone.
  - rewrite filter_app, flat_map_app.
    assert (flat_map (joined rs)
              (filter (λ a, Answer.question_id a = qid)
                 [write req q (Answer.mk (next_id (Answer.id <$> rows)) rid
                                         (Question.id q) None None)]) = []) as ->.
    { rewrite filter_cons, filter_nil. destruct (decide _); [| done].
      simpl. unfold joined. rewrite write_response_id. cbn [Answer.response_id].
      by rewrite Hnone. }
    by rewrite app_nil_r.
Qed.

Lemma joined_foldl_rows rs rid req qs rows qid :
  NoDup (Answer.id <$> rows) →
  filter (λ r, Response.id r = rid ∧ Response.is_complete r = true) rs = [] →
  flat_map (joined rs) (filter (λ a, Answer.question_id a = qid)
                               (foldl (rows_step rid req) rows qs))
  = flat_map (joined rs) (filter (λ a, Answer.question_id a = qid) rows).
Proof.
  revert rows. induction qs as [| q qs IH]; intros rows Hnd Hnone; [done |].
  simpl. rewrite IH by (by apply rows_step_ids || done).
  by apply joined_rows_step.
Qed.

Lemma filter_nil_intro {A} (P : A → Prop) `{∀ x, Decision (P x)} (l : list A) :
  (∀ x, x ∈ l → ¬ P x) → filter P l = [].
Proof.
  induction l as [| a l IH]; intros Hall; [done |].
  rewrite filter_cons, decide_False by (apply Hall; left).
  apply IH. intros x Hx. apply Hall. by right.
Qed.

(** Saving the draft found for a user leaves the responses table as it is. *)
Lemma update_response_draft (rs : list Response.t) (d : Response.t) :
  NoDup (Response.id <$> rs) → d ∈ rs → Response.is_complete d = false →
  update_response (Response.id d) (set_is_complete false) rs = rs.
Proof.
  intros Hnd Hd Hc. unfold update_response.
  rewrite <- (list_fmap_id rs) at 2. apply list_fmap_ext. intros _ x Hx%list_elem_of_lookup_2.
  destruct (Z.eqb_spec (Response.id x) (Response.id d)) as [E | E]; [| done].
  assert (x = d) as -> by by apply (NoDup_fmap_eq Response.id rs).
  destruct d. simpl in *. by subst.
Qed.

(** Saving a draft is invisible to the analytics: whoever sends the request
    and whatever it carries, every question keeps its statistics and every
    questionnaire its count of responses. *)
Theorem drafts_invisible_to_statistics
    (db : Db) (user : option User.t) (id : Z) (req : Request) :
  NoDup (Response.id <$> responses db) →
  NoDup (Answer.id <$> answers db) →
  form_has "save_draft" (form req) = true →
  (∀ question, get_answer_statistics (respond db user id req).1.1 question
               = get_answer_statistics db question)
  ∧ (∀ q, get_response_count (respond db user id req).1.1 q = get_response_count db q).
Proof.
  intros Hnr Hna Hdraft.
  destruct (accepted db user id req) as [q |] eqn:Hacc.
  2:{ by rewrite (respond_rejected _ _ _ _ Hacc). }
  rewrite (respond_accepted _ _ _ _ _ Hacc).
  assert (∀ question, complete_answers (committed db user q req) question
                      = complete_answers db question
          ∧ ∀ q', filter (λ r, Response.is_complete r = true)
                         (responses_of (committed db user q req) q')
                  = filter (λ r, Response.is_complete r = true) (responses_of db q'))
    as Hsame.
  { intros question. rewrite !complete_answers_joined. unfold responses_of.
    destruct (user ≫= find_draft db q) as [d |] eqn:Hfd.
    - destruct user as [u |]; [| done]. simpl in Hfd.
      destruct (find_draft_is_draft _ _ _ _ Hfd) as [Hd Hdc].
      rewrite (committed_found db u q req d Hfd). cbn [responses answers].
      rewrite (finish_draft req Hdraft), update_response_draft by done.
      split; [| done]. apply joined_foldl_rows; [done |].
      apply filter_nil_intro. intros x Hx [E Hc].
      assert (x = d) by by apply (NoDup_fmap_eq Response.id (responses db)).
      congruence.
    - rewrite (committed_new db user q req Hfd). cbn [responses answers].
      rewrite update_new_response, (finish_draft req Hdraft).
      assert (set_is_complete false (new_response db q user req)
              = new_response db q user req) as -> by done.
      split.
      + rewrite joined_foldl_rows; [| done |].
        * apply flat_map_ext. intros a. unfold joined.
          rewrite filter_app, filter_cons, filter_nil.
          rewrite decide_False by (by intros [_ ?]). by rewrite app_nil_r.
        * rewrite filter_app, filter_cons, filter_nil.
          rewrite decide_False by (by intros [_ ?]). rewrite app_nil_r.
          apply filter_nil_intro. intros x Hx [E _].
          assert (Response.id x < next_id (Response.id <$> responses db))
            by by apply next_id_fresh, list_elem_of_fmap_2.
          unfold new_response in E. simpl in E. lia.
      + intros q'. rewrite filter_app, filter_cons, filter_nil.
        destruct (decide _); [| by rewrite app_nil_r].
        rewrite filter_app, filter_cons, filter_nil.
        rewrite decide_False by done. by rewrite app_nil_r. }
  split.
  - intros question. unfold get_answer_statistics.
    destruct (Hsame question) as [-> _]. done.
  - intros q'. unfold get_response_count.
    destruct (Hsame rating) as [_ ->]. done.
Qed.

Lemma drafts_invisible_to_statistics_witness :
  (∀ question,
     get_answer_statistics
       (respond rated_db (Some carol) 1 (post [("question_1", "2"); ("save_draft", "1")])).1.1
       question
     = get_answer_statistics rated_db question)
  ∧ (∀ q, get_response_count
            (respond rated_db (Some carol) 1
                     (post [("question_1", "2"); ("save_draft", "1")])).1.1 q
          = get_response_count rated_db q).
Proof.
  apply (drafts_invisible_to_statistics rated_db (Some carol) 1
           (post [("question_1", "2"); ("save_draft", "1")])).
  - vm_compute. apply NoDup_singleton.
  - vm_compute. apply NoDup_singleton.
  - reflexivity.
Defined.

(** ** Searching *)

(** A search shows what the list page shows to the same actor, narrowed to
    the questionnaires whose title or description matches: nothing that the
    list hides turns up in a search, and a blank query gives the list
    itself. *)
Theorem search_refines_list
    (contains : string → string → bool) (db : Db) (user : option User.t)
    (q : option string) :
  search contains db user q
  = filter (λ x, strip (default "" q) = ""
                 ∨ search_filter contains (strip (default "" q)) x = true)
           (list_questionnaires db user).
Proof.
  unfold search, list_questionnaires.
  destruct (strip (default "" q)) as [| c s] eqn:Hquery; simpl.
  - destruct user as [u |]; [destruct (is_admin u) |];
      rewrite list_filter_filter; apply list_filter_iff; intros x; intuition auto.
  - destruct user as [u |]; [destruct (is_admin u) |];
      rewrite list_filter_filter; apply list_filter_iff; intros x;
      intuition (auto; discriminate).
Qed.

(** ** A validated response is full *)

(** The response an accepted submission works on, draft or final, reports a
    completion of 100 percent, unless the questionnaire has no required
    question and nothing was stored for the response. *)
Theorem validated_response_is_full
    (db : Db) (user : option User.t) (id : Z) (req : Request) (q : Questionnaire.t) :
  get_questionnaire db id = Some q →
  can_user_respond db q user = true →
  method req = POST →
  (∀ x, x ∈ get_questions db q → Question.is_required x = true →
        truthy (form_get (field_name x) (form req)) = true) →
  ∃ r, r ∈ responses (respond db user id req).1.1
       ∧ Response.questionnaire_id r = Questionnaire.id q
       ∧ Response.user_id r = User.id <$> user
       ∧ Response.is_complete r = negb (form_has "save_draft" (form req))
       ∧ (get_completion_percentage (respond db user id req).1.1 r = 100%Q
          ∨ (required_questions_of (respond db user id req).1.1 r = []
             ∧ answers_of (respond db user id req).1.1 (Response.id r) = [])).
Proof.
  intros Hq Hcan Hpost Hreq.
  rewrite (respond_accepted _ _ _ _ _ (accepted_intro _ _ _ _ _ Hq Hcan Hpost Hreq)).
  destruct (committed_response_of db user q req) as (r0 & Hin & Hans & Hqn & Hu).
  assert (questions (committed db user q req) = questions db) as Hqs.
  { unfold committed. by destruct (get_or_create_response _ _ _ _). }
  exists (finish req r0). split; [done |].
  destruct (finish_keys req r0) as [Hid Hqn'].
  split; [congruence |].
  split; [unfold finish; by destruct (form_has _ _) |].
  split; [unfold finish; by destruct (form_has _ _) |].
  set (db' := committed db user q req) in *.
  set (r := finish req r0) in *.
  assert (Forall (λ x, is_Some (get_answer_for_question db' r (Question.id x)))
                 (required_questions_of db' r)) as Hall.
  { apply Forall_forall. intros x Hx.
    unfold required_questions_of, questions_of in Hx. rewrite Hqs, Hqn', Hqn in Hx.
    apply list_elem_of_filter in Hx as [Hr Hx].
    assert (x ∈ get_questions db q) as Hxq.
    { apply elem_of_get_questions. by apply list_elem_of_filter in Hx as [? ?]. }
    destruct (covered_foldl (Response.id r0) req (get_questions db q) (answers db)
                            x Hxq (Hreq x Hxq Hr)) as [i Hi].
    rewrite get_answer_for_question_find, Hans, Hid.
    unfold find_answer_id in Hi. destruct (list_find _ _) as [[n a] |]; [| done].
    by eexists. }
  unfold get_completion_percentage. rewrite foldl_count_rows, filter_all by done.
  destruct (required_questions_of db' r) as [| x l] eqn:Hreqs; simpl Nat.eqb; cbv iota.
  - destruct (answers_of db' (Response.id r)); simpl; auto.
  - left. simpl plus. apply round2_full. simpl. lia.
Qed.

Lemma validated_response_is_full_witness :
  ∃ r, r ∈ responses (respond rating_db (Some carol) 1 (post [("question_1", "3")])).1.1
       ∧ Response.questionnaire_id r = Questionnaire.id survey
       ∧ Response.user_id r = User.id <$> Some carol
       ∧ Response.is_complete r
         = negb (form_has "save_draft" (form (post [("question_1", "3")])))
       ∧ (get_completion_percentage
            (respond rating_db (Some carol) 1 (post [("question_1", "3")])).1.1 r = 100%Q
          ∨ (required_questions_of
               (respond rating_db (Some carol) 1 (post [("question_1", "3")])).1.1 r = []
             ∧ answers_of (respond rating_db (Some carol) 1
                                   (post [("question_1", "3")])).1.1 (Response.id r)
               = [])).
Proof.
  apply (validated_response_is_full rating_db (Some carol) 1 (post [("question_1", "3")])
           survey).
  - reflexivity.
  - reflexivity.
  - reflexivity.
  - intros x Hx _. vm_compute in Hx. apply list_elem_of_singleton in Hx as ->.
    reflexivity.
Defined.

(** ** New questionnaires *)

(** A questionnaire created through the form starts empty.  When the tables
    are consistent, a creator who submits a valid form gets one new row with
    a fresh key, 5 to 200 characters of title and the creator as owner; it is
    active and listed for the creator, who may edit it, and it has no
    question and no response, so that the creator may respond to it. *)
Theorem create_starts_empty (db : Db) (u : User.t) (f : QuestionnaireFormData) :
  referential_integrity db →
  is_creator u = true →
  QuestionnaireForm_validate f = true →
  ∃ qn, (create db u (Some f)).1 = with_questionnaires db (questionnaires db ++ [qn])
        ∧ (∀ x, x ∈ questionnaires db → Questionnaire.id x ≠ Questionnaire.id qn)
        ∧ Questionnaire.creator_id qn = User.id u
        ∧ form_title f = Some (Questionnaire.title qn)
        ∧ (5 ≤ String.length (Questionnaire.title qn) ≤ 200)%nat
        ∧ can_edit_questionnaire u qn = true
        ∧ qn ∈ list_questionnaires (create db u (Some f)).1 (Some u)
        ∧ get_questions (create db u (Some f)).1 qn = []
        ∧ responses_of (create db u (Some f)).1 qn = []
        ∧ can_user_respond (create db u (Some f)).1 qn (Some u) = true.
Proof.
  intros (HQ & HR & _) Hcr Hv. unfold create. rewrite Hcr, Hv. simpl.
  eexists. split; [reflexivity |].
  assert (∀ x, x ∈ questionnaires db →
               Questionnaire.id x ≠ next_id (Questionnaire.id <$> questionnaires db))
    as Hfresh.
  { intros x Hx E.
    assert (Questionnaire.id x < next_id (Questionnaire.id <$> questionnaires db))
      by by apply next_id_fresh, list_elem_of_fmap_2.
    lia. }
  unfold QuestionnaireForm_validate in Hv.
  apply andb_prop in Hv as [[Hreq Hlen]%andb_prop _].
  unfold length_between in Hlen. apply andb_prop in Hlen as [Hlo Hhi].
  apply Nat.leb_le in Hlo, Hhi.
  assert (∀ l, questions_of (with_questionnaires db l)
                           (next_id (Questionnaire.id <$> questionnaires db)) = [])
    as Hnoq.
  { intros l. unfold questions_of. simpl. apply filter_nil_intro. intros x Hx E.
    destruct (HQ x Hx) as (qn & Hqn & Hid). apply (Hfresh qn Hqn). congruence. }
  assert (∀ qn', Questionnaire.id qn' = next_id (Questionnaire.id <$> questionnaires db) →
                 responses_of (with_questionnaires db (questionnaires db ++ [qn'])) qn'
                 = []) as Hnor.
  { intros qn' Hid'. unfold responses_of. simpl. apply filter_nil_intro. intros x Hx E.
    destruct (HR x Hx) as (qn & Hqn & Hid). apply (Hfresh qn Hqn). congruence. }
  simpl. split; [done |]. split; [done |].
  split; [unfold data_required in Hreq; by destruct (form_title f) |].
  split; [done |].
  assert (can_edit_questionnaire u
            (Questionnaire.mk (next_id (Questionnaire.id <$> questionnaires db))
               (default "" (form_title f)) (form_description f) (User.id u) true
               (form_is_public f) (form_allow_anonymous f)
               (form_allow_multiple_responses f)) = true) as Hedit.
  { unfold can_edit_questionnaire. simpl. rewrite Z.eqb_refl. by destruct (is_admin u). }
  split; [done |]. split; [| split; [| split]].
  - unfold list_questionnaires. simpl. destruct (is_admin u).
    + apply list_elem_of_filter. split; [done |]. apply elem_of_app. right. left.
    + apply list_elem_of_filter. split; [by auto |]. apply elem_of_app. right. left.
  - unfold get_questions. cbn [Questionnaire.id]. by rewrite Hnoq.
  - by apply Hnor.
  - unfold can_user_respond, user_has_responded. rewrite Hnor by done. simpl.
    destruct (User.id u =? 0); by rewrite andb_false_r.
Qed.

Lemma create_starts_empty_witness :
  ∃ qn, (create rated_db dave
                (Some (mkQuestionnaireFormData (Some "Lunch poll") None true false false))).1
        = with_questionnaires rated_db (questionnaires rated_db ++ [qn])
        ∧ (∀ x, x ∈ questionnaires rated_db → Questionnaire.id x ≠ Questionnaire.id qn)
        ∧ Questionnaire.creator_id qn = User.id dave
        ∧ form_title (mkQuestionnaireFormData (Some "Lunch poll") None true false false)
          = Some (Questionnaire.title qn)
        ∧ (5 ≤ String.length (Questionnaire.title qn) ≤ 200)%nat
        ∧ can_edit_questionnaire dave qn = true
        ∧ qn ∈ list_questionnaires
                 (create rated_db dave
                    (Some (mkQuestionnaireFormData (Some "Lunch poll") None true false
                                                   false))).1 (Some dave)
        ∧ get_questions
            (create rated_db dave
               (Some (mkQuestionnaireFormData (Some "Lunch poll") None true false false))).1
            qn = []
        ∧ responses_of
            (create rated_db dave
               (Some (mkQuestionnaireFormData (Some "Lunch poll") None true false false))).1
            qn = []
        ∧ can_user_respond
            (create rated_db dave
               (Some (mkQuestionnaireFormData (Some "Lunch poll") None true false false))).1
            qn (Some dave) = true.
Proof.
  apply (create_starts_empty rated_db dave
           (mkQuestionnaireFormData (Some "Lunch poll") None true false false)).
  - exact rated_db_integrity.
  - reflexivity.
  - reflexivity.
Defined.
